(** * encrypt_openrouter.py: the secret encryptor, embedded and verified

    The script derives a key from a passphrase (SHA-256), draws a 16-byte
    IV, pads the secret PKCS#7-style, encrypts it with AES in CBC mode,
    base64-encodes IV || ciphertext and prints an SQL upsert.

    Python values are modelled as follows: [int] is [Z], [bytes] is
    [list byte], [str] is a list of code points, an exception is the
    [Raise] branch of [result]. *)

From Stdlib Require Import ZArith NArith List Bool Lia String Ascii.
From Stdlib Require Import Strings.Byte.
From AAC_tactics Require Import AAC.
Import ListNotations.

Local Open Scope Z_scope.

(** ** Python values and exceptions *)

Definition bytes := list byte.

Inductive exn : Type :=
| ValueError
| UnicodeEncodeError
| UnicodeDecodeError
| BinasciiError.

Inductive result (A : Type) : Type :=
| Ok (a : A)
| Raise (e : exn).

Arguments Ok {A} a.
Arguments Raise {A} e.

Definition bind {A B : Type} (m : result A) (k : A -> result B) : result B :=
  match m with
  | Ok a => k a
  | Raise e => Raise e
  end.

Notation "x <- m ;; k" := (bind m (fun x => k))
  (at level 61, m at next level, right associativity).

Fixpoint mapM {A B : Type} (f : A -> result B) (l : list A) : result (list B) :=
  match l with
  | [] => Ok []
  | a :: l' => b <- f a ;; bs <- mapM f l' ;; Ok (b :: bs)
  end.

(** [len(b)] as a Python int. *)
Definition len {A : Type} (l : list A) : Z := Z.of_nat (List.length l).

(** The value of a byte as a Python int, [b[i]]. *)
Definition byte_val (b : byte) : Z := Z.of_N (Byte.to_N b).

(** The low eight bits of [n] as a byte. *)
Definition byte_of_N (n : N) : byte :=
  match Byte.of_N (n mod 256)%N with
  | Some b => b
  | None => x00
  end.

(** [[x] * n]: list repetition; a count below one gives the empty list. *)
Definition list_repeat (x : Z) (n : Z) : list Z := repeat x (Z.to_nat n).

(** One element of [bytes(iterable)]: a ValueError outside range(256). *)
Definition byte_of_int (v : Z) : result byte :=
  if (0 <=? v) && (v <? 256) then
    match Byte.of_N (Z.to_N v) with
    | Some b => Ok b
    | None => Raise ValueError
    end
  else Raise ValueError.

(** [bytes(list_of_ints)] *)
Definition bytes_of_ints (l : list Z) : result bytes := mapM byte_of_int l.

(** ** Padding (lines 34-36 of the script) *)

(** [padding_length = 16 - (len(plaintext) % 16)] *)
Definition padding_length (plaintext : bytes) : Z :=
  16 - (len plaintext mod 16).

(** [padded_plaintext = plaintext + bytes([padding_length] * padding_length)] *)
Definition padded_plaintext (plaintext : bytes) : result bytes :=
  let n := padding_length plaintext in
  pad <- bytes_of_ints (list_repeat n n) ;;
  Ok (plaintext ++ pad).

(** ** Bytes as elements of GF(2^8)

    The script imports AES from the [cryptography] package; the cipher is
    the one of FIPS-197, written here over [Byte.byte] so that every
    operation is total.  Bit 0 of [Byte.to_bits] is the least
    significant one. *)

Definition bxor (a b : byte) : byte :=
  let '(a0, (a1, (a2, (a3, (a4, (a5, (a6, a7))))))) := Byte.to_bits a in
  let '(b0, (b1, (b2, (b3, (b4, (b5, (b6, b7))))))) := Byte.to_bits b in
  Byte.of_bits (xorb a0 b0, (xorb a1 b1, (xorb a2 b2, (xorb a3 b3,
               (xorb a4 b4, (xorb a5 b5, (xorb a6 b6, xorb a7 b7))))))).

(** Multiplication by x modulo x^8 + x^4 + x^3 + x + 1: a left shift,
    then 0x1b is xored in when bit 7 was set. *)
Definition xtime (a : byte) : byte :=
  let '(a0, (a1, (a2, (a3, (a4, (a5, (a6, a7))))))) := Byte.to_bits a in
  Byte.of_bits (a7, (xorb a0 a7, (a1, (xorb a2 a7,
               (xorb a3 a7, (a4, (a5, a6))))))).

Definition scale (bit : bool) (a : byte) : byte := if bit then a else x00.

(** Product in GF(2^8): [a] times the polynomial whose coefficients are
    the bits of [b]. *)
Definition gmul (a b : byte) : byte :=
  let '(b0, (b1, (b2, (b3, (b4, (b5, (b6, b7))))))) := Byte.to_bits b in
  let a1 := xtime a in
  let a2 := xtime a1 in
  let a3 := xtime a2 in
  let a4 := xtime a3 in
  let a5 := xtime a4 in
  let a6 := xtime a5 in
  let a7 := xtime a6 in
  bxor (scale b0 a) (bxor (scale b1 a1) (bxor (scale b2 a2) (bxor (scale b3 a3)
    (bxor (scale b4 a4) (bxor (scale b5 a5) (bxor (scale b6 a6) (scale b7 a7))))))).

Definition gsquare (a : byte) : byte := gmul a a.

(** The multiplicative inverse, as a^254 (0 is mapped to 0). *)
Definition ginv (a : byte) : byte :=
  let a2 := gsquare a in
  let a4 := gsquare a2 in
  let a8 := gsquare a4 in
  let a16 := gsquare a8 in
  let a32 := gsquare a16 in
  let a64 := gsquare a32 in
  let a128 := gsquare a64 in
  gmul a128 (gmul a64 (gmul a32 (gmul a16 (gmul a8 (gmul a4 a2))))).

(** The affine map of the S-box: bit i becomes
    b_i + b_(i+4) + b_(i+5) + b_(i+6) + b_(i+7) + c_i with c = 0x63. *)
Definition affine (b : byte) : byte :=
  let '(b0, (b1, (b2, (b3, (b4, (b5, (b6, b7))))))) := Byte.to_bits b in
  let x (p q r s t : bool) := xorb p (xorb q (xorb r (xorb s t))) in
  Byte.of_bits (negb (x b0 b4 b5 b6 b7), (negb (x b1 b5 b6 b7 b0),
               (x b2 b6 b7 b0 b1, (x b3 b7 b0 b1 b2,
               (x b4 b0 b1 b2 b3, (negb (x b5 b1 b2 b3 b4),
               (negb (x b6 b2 b3 b4 b5), x b7 b3 b4 b5 b6))))))).

(** Its inverse: bit i becomes b_(i+2) + b_(i+5) + b_(i+7) + d_i with
    d = 0x05. *)
Definition inv_affine (b : byte) : byte :=
  let '(b0, (b1, (b2, (b3, (b4, (b5, (b6, b7))))))) := Byte.to_bits b in
  let x (p q r : bool) := xorb p (xorb q r) in
  Byte.of_bits (negb (x b2 b5 b7), (x b3 b6 b0,
               (negb (x b4 b7 b1), (x b5 b0 b2,
               (x b6 b1 b3, (x b7 b2 b4,
               (x b0 b3 b5, x b1 b4 b6))))))).

Definition sub_byte (b : byte) : byte := affine (ginv b).
Definition inv_sub_byte (b : byte) : byte := ginv (inv_affine b).

(** ** AES state, words and round transformations (FIPS-197, section 5) *)

Definition word : Type := (byte * byte * byte * byte)%type.

(** The state: four columns, in the order of the input bytes. *)
Definition block : Type := (word * word * word * word)%type.

Definition xor_word (u v : word) : word :=
  let '(u0, u1, u2, u3) := u in
  let '(v0, v1, v2, v3) := v in
  (bxor u0 v0, bxor u1 v1, bxor u2 v2, bxor u3 v3).

Definition sub_word (u : word) : word :=
  let '(u0, u1, u2, u3) := u in
  (sub_byte u0, sub_byte u1, sub_byte u2, sub_byte u3).

Definition inv_sub_word (u : word) : word :=
  let '(u0, u1, u2, u3) := u in
  (inv_sub_byte u0, inv_sub_byte u1, inv_sub_byte u2, inv_sub_byte u3).

Definition rot_word (u : word) : word :=
  let '(u0, u1, u2, u3) := u in (u1, u2, u3, u0).

Definition xor_block (s k : block) : block :=
  let '(s0, s1, s2, s3) := s in
  let '(k0, k1, k2, k3) := k in
  (xor_word s0 k0, xor_word s1 k1, xor_word s2 k2, xor_word s3 k3).

Definition add_round_key (s k : block) : block := xor_block s k.

Definition sub_bytes (s : block) : block :=
  let '(c0, c1, c2, c3) := s in
  (sub_word c0, sub_word c1, sub_word c2, sub_word c3).

Definition inv_sub_bytes (s : block) : block :=
  let '(c0, c1, c2, c3) := s in
  (inv_sub_word c0, inv_sub_word c1, inv_sub_word c2, inv_sub_word c3).

(** Row r is rotated left by r columns. *)
Definition shift_rows (s : block) : block :=
  let '((a0, a1, a2, a3), (b0, b1, b2, b3),
        (c0, c1, c2, c3), (d0, d1, d2, d3)) := s in
  ((a0, b1, c2, d3), (b0, c1, d2, a3), (c0, d1, a2, b3), (d0, a1, b2, c3)).

Definition inv_shift_rows (s : block) : block :=
  let '((a0, a1, a2, a3), (b0, b1, b2, b3),
        (c0, c1, c2, c3), (d0, d1, d2, d3)) := s in
  ((a0, d1, c2, b3), (b0, a1, d2, c3), (c0, b1, a2, d3), (d0, c1, b2, a3)).

Definition mix_column (u : word) : word :=
  let '(u0, u1, u2, u3) := u in
  (bxor (gmul u0 x02) (bxor (gmul u1 x03) (bxor u2 u3)),
   bxor u0 (bxor (gmul u1 x02) (bxor (gmul u2 x03) u3)),
   bxor u0 (bxor u1 (bxor (gmul u2 x02) (gmul u3 x03))),
   bxor (gmul u0 x03) (bxor u1 (bxor u2 (gmul u3 x02)))).

Definition inv_mix_column (u : word) : word :=
  let '(u0, u1, u2, u3) := u in
  (bxor (gmul u0 x0e) (bxor (gmul u1 x0b) (bxor (gmul u2 x0d) (gmul u3 x09))),
   bxor (gmul u0 x09) (bxor (gmul u1 x0e) (bxor (gmul u2 x0b) (gmul u3 x0d))),
   bxor (gmul u0 x0d) (bxor (gmul u1 x09) (bxor (gmul u2 x0e) (gmul u3 x0b))),
   bxor (gmul u0 x0b) (bxor (gmul u1 x0d) (bxor (gmul u2 x09) (gmul u3 x0e)))).

Definition mix_columns (s : block) : block :=
  let '(c0, c1, c2, c3) := s in
  (mix_column c0, mix_column c1, mix_column c2, mix_column c3).

Definition inv_mix_columns (s : block) : block :=
  let '(c0, c1, c2, c3) := s in
  (inv_mix_column c0, inv_mix_column c1, inv_mix_column c2, inv_mix_column c3).

(** ** Key expansion (FIPS-197, section 5.2) *)

Definition zero_word : word := (x00, x00, x00, x00).

(** Rcon[j] = (x^(j-1), 0, 0, 0) *)
Definition rcon (j : nat) : word :=
  (Nat.iter (j - 1) xtime x01, x00, x00, x00).

(** [expand_from Nk n i w]: [w] holds the words w[0..i-1]; [n] more are
    appended. *)
Fixpoint expand_from (Nk n i : nat) (w : list word) : list word :=
  match n with
  | O => w
  | S n' =>
      let temp := nth (i - 1) w zero_word in
      let temp :=
        if Nat.eqb (i mod Nk) 0 then
          xor_word (sub_word (rot_word temp)) (rcon (i / Nk))
        else if Nat.ltb 6 Nk && Nat.eqb (i mod Nk) 4 then sub_word temp
        else temp in
      expand_from Nk n' (S i) (w ++ [xor_word (nth (i - Nk) w zero_word) temp])
  end.

Fixpoint words_of_bytes (l : bytes) : list word :=
  match l with
  | a :: b :: c :: d :: rest => (a, b, c, d) :: words_of_bytes rest
  | _ => []
  end.

Fixpoint blocks_of_words (l : list word) : list block :=
  match l with
  | a :: b :: c :: d :: rest => (a, b, c, d) :: blocks_of_words rest
  | _ => []
  end.

(** The round keys of a key of [Nk] words: Nr = Nk + 6 rounds, hence
    Nr + 1 round keys of four words each. *)
Definition key_expansion (key : bytes) : list block :=
  let w := words_of_bytes key in
  let Nk := List.length w in
  let Nr := (Nk + 6)%nat in
  blocks_of_words (expand_from Nk (4 * (Nr + 1) - Nk) Nk w).

(** ** Cipher and inverse cipher (FIPS-197, sections 5.1 and 5.3) *)

Definition round (k : block) (s : block) : block :=
  add_round_key (mix_columns (shift_rows (sub_bytes s))) k.

Definition final_round (k : block) (s : block) : block :=
  add_round_key (shift_rows (sub_bytes s)) k.

Definition inv_round (k : block) (s : block) : block :=
  inv_sub_bytes (inv_shift_rows (inv_mix_columns (add_round_key s k))).

Definition inv_final_round (k : block) (s : block) : block :=
  inv_sub_bytes (inv_shift_rows (add_round_key s k)).

(** All rounds after the initial key addition: every key but the last
    drives a full round, the last one the final round. *)
Fixpoint rounds (ks : list block) (s : block) : block :=
  match ks with
  | [] => s
  | [k] => final_round k s
  | k :: ks' => rounds ks' (round k s)
  end.

Fixpoint inv_rounds (ks : list block) (s : block) : block :=
  match ks with
  | [] => s
  | [k] => inv_final_round k s
  | k :: ks' => inv_round k (inv_rounds ks' s)
  end.

Definition zero_block : block := (zero_word, zero_word, zero_word, zero_word).

Definition cipher_block (rks : list block) (s : block) : block :=
  match rks with
  | [] => s
  | k0 :: ks => rounds ks (add_round_key s k0)
  end.

Definition inv_cipher_block (rks : list block) (s : block) : block :=
  match rks with
  | [] => s
  | k0 :: ks => add_round_key (inv_rounds ks s) k0
  end.

Definition bytes_of_word (u : word) : bytes :=
  let '(a, b, c, d) := u in [a; b; c; d].

Definition bytes_of_block (s : block) : bytes :=
  let '(c0, c1, c2, c3) := s in
  bytes_of_word c0 ++ bytes_of_word c1 ++ bytes_of_word c2 ++ bytes_of_word c3.

(** The first sixteen bytes of [l] as a block, and what follows. *)
Definition take_block (l : bytes) : option (block * bytes) :=
  match l with
  | a0 :: a1 :: a2 :: a3 :: b0 :: b1 :: b2 :: b3 ::
    c0 :: c1 :: c2 :: c3 :: d0 :: d1 :: d2 :: d3 :: rest =>
      Some (((a0, a1, a2, a3), (b0, b1, b2, b3),
             (c0, c1, c2, c3), (d0, d1, d2, d3)), rest)
  | _ => None
  end.

Fixpoint split_blocks (l : bytes) : list block * bytes :=
  match l with
  | a0 :: a1 :: a2 :: a3 :: b0 :: b1 :: b2 :: b3 ::
    c0 :: c1 :: c2 :: c3 :: d0 :: d1 :: d2 :: d3 :: rest =>
      let '(bs, r) := split_blocks rest in
      (((a0, a1, a2, a3), (b0, b1, b2, b3),
        (c0, c1, c2, c3), (d0, d1, d2, d3)) :: bs, r)
  | _ => ([], l)
  end.

Definition join_blocks (bs : list block) : bytes := flat_map bytes_of_block bs.

(** ** CBC mode *)

(** Each plaintext block is xored with the previous ciphertext block (the
    IV for the first) and enciphered; the last ciphertext block is
    returned as the next chaining value. *)
Fixpoint cbc_encrypt_blocks (rks : list block) (chain : block)
    (ps : list block) : list block * block :=
  match ps with
  | [] => ([], chain)
  | p :: ps' =>
      let c := cipher_block rks (xor_block p chain) in
      let '(cs, last) := cbc_encrypt_blocks rks c ps' in
      (c :: cs, last)
  end.

Fixpoint cbc_decrypt_blocks (rks : list block) (chain : block)
    (cs : list block) : list block :=
  match cs with
  | [] => []
  | c :: cs' =>
      xor_block (inv_cipher_block rks c) chain :: cbc_decrypt_blocks rks c cs'
  end.

(** ** The [cryptography] API used by the script *)

(** [algorithms.AES(key)]: the key is kept when its size in bits is one
    of 128, 192, 256, 512; a ValueError otherwise. *)
Record AES : Type := { aes_key : bytes }.

Definition key_size (a : AES) : Z := len (aes_key a) * 8.

Definition block_size : Z := 128.

Definition algorithms_AES (key : bytes) : result AES :=
  let bits := len key * 8 in
  if (bits =? 128) || (bits =? 192) || (bits =? 256) || (bits =? 512)
  then Ok {| aes_key := key |}
  else Raise ValueError.

(** [modes.CBC(iv)] *)
Record CBC : Type := { initialization_vector : bytes }.

Record Cipher : Type := { algorithm : AES; mode : CBC }.

(** [Cipher(algorithm, mode, backend)] validates the mode against the
    algorithm: no key above 256 bits outside XTS, and an IV as long as a
    block. *)
Definition new_Cipher (a : AES) (m : CBC) : result Cipher :=
  if key_size a >? 256 then Raise ValueError
  else if len (initialization_vector m) * 8 =? block_size
       then Ok {| algorithm := a; mode := m |}
       else Raise ValueError.

(** The state of an encryption context: the round keys, the chaining
    value and the bytes not yet forming a block. *)
Record CipherContext : Type :=
  { round_keys : list block; chain : block; buffer : bytes }.

Definition block_of_bytes (l : bytes) : block :=
  match take_block l with
  | Some (b, _) => b
  | None => zero_block
  end.

(** [cipher.encryptor()] *)
Definition encryptor (c : Cipher) : CipherContext :=
  {| round_keys := key_expansion (aes_key (algorithm c));
     chain := block_of_bytes (initialization_vector (mode c));
     buffer := [] |}.

(** [encryptor.update(data)]: every complete block is enciphered and
    returned, the rest stays in the buffer. *)
Definition update (ctx : CipherContext) (data : bytes) : CipherContext * bytes :=
  let '(ps, r) := split_blocks (buffer ctx ++ data) in
  let '(cs, last) := cbc_encrypt_blocks (round_keys ctx) (chain ctx) ps in
  ({| round_keys := round_keys ctx; chain := last; buffer := r |},
   join_blocks cs).

(** [encryptor.finalize()]: a ValueError when the data was not a
    multiple of the block length; nothing more to return otherwise. *)
Definition finalize (ctx : CipherContext) : result bytes :=
  match buffer ctx with
  | [] => Ok []
  | _ :: _ => Raise ValueError
  end.

(** ** SHA-256 (FIPS 180-4), [hashlib.sha256(data).digest()] *)

Module SHA256.

Local Open Scope N_scope.

Definition mask32 : N := 0xffffffff.

Definition add32 (x y : N) : N := N.land (x + y) mask32.

Definition rotr (n x : N) : N :=
  N.lor (N.shiftr x n) (N.land (N.shiftl x (32 - n)) mask32).

Definition shr (n x : N) : N := N.shiftr x n.

Definition not32 (x : N) : N := N.lxor x mask32.

Definition Ch (x y z : N) : N := N.lxor (N.land x y) (N.land (not32 x) z).

Definition Maj (x y z : N) : N :=
  N.lxor (N.land x y) (N.lxor (N.land x z) (N.land y z)).

Definition Sigma0 (x : N) : N := N.lxor (rotr 2 x) (N.lxor (rotr 13 x) (rotr 22 x)).
Definition Sigma1 (x : N) : N := N.lxor (rotr 6 x) (N.lxor (rotr 11 x) (rotr 25 x)).
Definition sigma0 (x : N) : N := N.lxor (rotr 7 x) (N.lxor (rotr 18 x) (shr 3 x)).
Definition sigma1 (x : N) : N := N.lxor (rotr 17 x) (N.lxor (rotr 19 x) (shr 10 x)).

(** The constants are those of the standard: the first 32 bits of the
    fractional parts of the cube roots (K) and of the square roots (H0)
    of the first primes. *)
Definition is_prime (n : nat) : bool :=
  forallb (fun d => negb (Nat.eqb (Nat.modulo n d) 0)) (seq 2 (n - 2)).

(** The first 64 primes, 2 to 311. *)
Definition primes : list N :=
  Eval vm_compute in map N.of_nat (filter is_prime (seq 2 310)).

(** The integer cube root of [x], bit [b - 1] downwards. *)
Fixpoint cbrt_bits (b : nat) (x r : N) : N :=
  match b with
  | O => r
  | S b' =>
      let r' := r + N.shiftl 1 (N.of_nat b') in
      cbrt_bits b' x (if r' * r' * r' <=? x then r' else r)
  end.

Definition frac_cbrt (p : N) : N :=
  N.land (cbrt_bits 40 (N.shiftl p 96) 0) mask32.

Definition frac_sqrt (p : N) : N := N.land (N.sqrt (N.shiftl p 64)) mask32.

Definition K : list N := Eval vm_compute in map frac_cbrt primes.

Definition state : Type := (N * N * N * N * N * N * N * N)%type.

Definition H0 : state :=
  Eval vm_compute in
    (frac_sqrt 2, frac_sqrt 3, frac_sqrt 5, frac_sqrt 7,
     frac_sqrt 11, frac_sqrt 13, frac_sqrt 17, frac_sqrt 19).

(** A 32-bit word, most significant byte first. *)
Definition bytes_of_word32 (w : N) : bytes :=
  [byte_of_N (N.shiftr w 24); byte_of_N (N.shiftr w 16);
   byte_of_N (N.shiftr w 8); byte_of_N w].

Definition word32_of_bytes (a b c d : byte) : N :=
  N.lor (N.shiftl (Byte.to_N a) 24)
    (N.lor (N.shiftl (Byte.to_N b) 16)
       (N.lor (N.shiftl (Byte.to_N c) 8) (Byte.to_N d))).

Fixpoint words32_of_bytes (l : bytes) : list N :=
  match l with
  | a :: b :: c :: d :: rest => word32_of_bytes a b c d :: words32_of_bytes rest
  | _ => []
  end.

(** The message followed by 0x80, zeros up to 56 modulo 64, and the bit
    length on eight bytes. *)
Definition pad (msg : bytes) : bytes :=
  let l := List.length msg in
  let k := ((64 - (l + 9) mod 64) mod 64)%nat in
  let bits := 8 * N.of_nat l in
  msg ++ [x80] ++ repeat x00 k
      ++ bytes_of_word32 (N.shiftr bits 32) ++ bytes_of_word32 bits.

(** [schedule n i w]: [w] holds W[0..i-1]; [n] more words are appended. *)
Fixpoint schedule (n i : nat) (w : list N) : list N :=
  match n with
  | O => w
  | S n' =>
      let x := add32 (add32 (sigma1 (nth (i - 2) w 0)) (nth (i - 7) w 0))
                     (add32 (sigma0 (nth (i - 15) w 0)) (nth (i - 16) w 0)) in
      schedule n' (S i) (w ++ [x])
  end.

Definition step (s : state) (kw : N * N) : state :=
  let '(a, b, c, d, e, f, g, h) := s in
  let '(k, w) := kw in
  let T1 := add32 (add32 (add32 h (Sigma1 e)) (add32 (Ch e f g) k)) w in
  let T2 := add32 (Sigma0 a) (Maj a b c) in
  (add32 T1 T2, a, b, c, add32 d T1, e, f, g).

Definition compress (s : state) (blk : bytes) : state :=
  let W := schedule 48 16 (words32_of_bytes blk) in
  let '(a, b, c, d, e, f, g, h) := fold_left step (combine K W) s in
  let '(a0, b0, c0, d0, e0, f0, g0, h0) := s in
  (add32 a0 a, add32 b0 b, add32 c0 c, add32 d0 d,
   add32 e0 e, add32 f0 f, add32 g0 g, add32 h0 h).

(** The 64-byte blocks of [l]; [fuel] bounds their number. *)
Fixpoint chunks64 (fuel : nat) (l : bytes) : list bytes :=
  match fuel with
  | O => []
  | S fuel' =>
      match l with
      | [] => []
      | _ :: _ => firstn 64 l :: chunks64 fuel' (skipn 64 l)
      end
  end.

Definition digest_of_state (s : state) : bytes :=
  let '(a, b, c, d, e, f, g, h) := s in
  bytes_of_word32 a ++ bytes_of_word32 b ++ bytes_of_word32 c ++ bytes_of_word32 d
    ++ bytes_of_word32 e ++ bytes_of_word32 f ++ bytes_of_word32 g ++ bytes_of_word32 h.

Definition digest (msg : bytes) : bytes :=
  let m := pad msg in
  digest_of_state (fold_left compress (chunks64 (List.length m) m) H0).

End SHA256.

Definition hashlib_sha256_digest (data : bytes) : bytes := SHA256.digest data.

(** ** Base64 (RFC 4648), [base64.b64encode] and [base64.b64decode] *)

Module Base64.

Local Open Scope N_scope.

(** The character of a six-bit value: A-Z, a-z, 0-9, + and /. *)
Definition char_of_sextet (i : N) : byte :=
  byte_of_N (if i <? 26 then 65 + i
             else if i <? 52 then 71 + i
             else if i <? 62 then i - 4
             else if i =? 62 then 43
             else 47).

Definition pad_char : byte := x3d.

Definition sextet_of_char (c : byte) : option N :=
  let n := Byte.to_N c in
  if (65 <=? n) && (n <=? 90) then Some (n - 65)
  else if (97 <=? n) && (n <=? 122) then Some (n - 71)
  else if (48 <=? n) && (n <=? 57) then Some (n + 4)
  else if n =? 43 then Some 62
  else if n =? 47 then Some 63
  else None.

Definition encode3 (a b c : byte) : bytes :=
  let a := Byte.to_N a in
  let b := Byte.to_N b in
  let c := Byte.to_N c in
  [char_of_sextet (a / 4); char_of_sextet ((a mod 4) * 16 + b / 16);
   char_of_sextet ((b mod 16) * 4 + c / 64); char_of_sextet (c mod 64)].

Definition encode2 (a b : byte) : bytes :=
  let a := Byte.to_N a in
  let b := Byte.to_N b in
  [char_of_sextet (a / 4); char_of_sextet ((a mod 4) * 16 + b / 16);
   char_of_sextet ((b mod 16) * 4); pad_char].

Definition encode1 (a : byte) : bytes :=
  let a := Byte.to_N a in
  [char_of_sextet (a / 4); char_of_sextet ((a mod 4) * 16); pad_char; pad_char].

Fixpoint b64encode (l : bytes) : bytes :=
  match l with
  | [] => []
  | [a] => encode1 a
  | [a; b] => encode2 a b
  | a :: b :: c :: rest => encode3 a b c ++ b64encode rest
  end.

Definition decode3 (s0 s1 s2 s3 : N) : bytes :=
  [byte_of_N (s0 * 4 + s1 / 16); byte_of_N ((s1 mod 16) * 16 + s2 / 4);
   byte_of_N ((s2 mod 4) * 64 + s3)].

Definition decode2 (s0 s1 s2 : N) : bytes :=
  [byte_of_N (s0 * 4 + s1 / 16); byte_of_N ((s1 mod 16) * 16 + s2 / 4)].

Definition decode1 (s0 s1 : N) : bytes := [byte_of_N (s0 * 4 + s1 / 16)].

(** The last group of four characters, which may end in one or two
    padding characters. *)
Definition decode_last (c0 c1 c2 c3 : byte) : result bytes :=
  match sextet_of_char c0, sextet_of_char c1 with
  | Some s0, Some s1 =>
      if Byte.eqb c3 pad_char then
        if Byte.eqb c2 pad_char then Ok (decode1 s0 s1)
        else match sextet_of_char c2 with
             | Some s2 => Ok (decode2 s0 s1 s2)
             | None => Raise BinasciiError
             end
      else match sextet_of_char c2, sextet_of_char c3 with
           | Some s2, Some s3 => Ok (decode3 s0 s1 s2 s3)
           | _, _ => Raise BinasciiError
           end
  | _, _ => Raise BinasciiError
  end.

(** Decoding of a padded encoding: groups of four characters, padding
    in the last group only; anything else is an error. *)
Fixpoint b64decode (l : bytes) : result bytes :=
  match l with
  | [] => Ok []
  | [c0; c1; c2; c3] => decode_last c0 c1 c2 c3
  | c0 :: c1 :: c2 :: c3 :: rest =>
      match sextet_of_char c0, sextet_of_char c1,
            sextet_of_char c2, sextet_of_char c3 with
      | Some s0, Some s1, Some s2, Some s3 =>
          tl <- b64decode rest ;; Ok (decode3 s0 s1 s2 s3 ++ tl)
      | _, _, _, _ => Raise BinasciiError
      end
  | _ => Raise BinasciiError
  end.

(** The characters a base64 text is made of. *)
Definition in_alphabet (c : N) : bool :=
  ((65 <=? c) && (c <=? 90)) || ((97 <=? c) && (c <=? 122))
  || ((48 <=? c) && (c <=? 57)) || (c =? 43) || (c =? 47) || (c =? 61).

End Base64.

(** ** Python [str]: a sequence of code points; UTF-8 *)

Definition str : Type := list N.

Module UTF8.

Local Open Scope N_scope.

(** The UTF-8 bytes of one code point; surrogates cannot be encoded. *)
Definition encode_code_point (c : N) : result bytes :=
  if c <? 0x80 then Ok [byte_of_N c]
  else if c <? 0x800 then
    Ok [byte_of_N (0xC0 + c / 64); byte_of_N (0x80 + c mod 64)]
  else if (0xD800 <=? c) && (c <=? 0xDFFF) then Raise UnicodeEncodeError
  else if c <? 0x10000 then
    Ok [byte_of_N (0xE0 + c / 4096); byte_of_N (0x80 + (c / 64) mod 64);
        byte_of_N (0x80 + c mod 64)]
  else if c <? 0x110000 then
    Ok [byte_of_N (0xF0 + c / 262144); byte_of_N (0x80 + (c / 4096) mod 64);
        byte_of_N (0x80 + (c / 64) mod 64); byte_of_N (0x80 + c mod 64)]
  else Raise UnicodeEncodeError.

Fixpoint encode (s : str) : result bytes :=
  match s with
  | [] => Ok []
  | c :: s' => hd <- encode_code_point c ;; tl <- encode s' ;; Ok (hd ++ tl)
  end.

(** A continuation byte is 10xxxxxx. *)
Definition is_cont (n : N) : bool := (0x80 <=? n) && (n <? 0xC0).

(** Strict decoding: no stray or missing continuation byte, no overlong
    form, no surrogate, nothing above U+10FFFF. *)
Fixpoint decode (l : bytes) : result str :=
  match l with
  | [] => Ok []
  | b0 :: r0 =>
      let n0 := Byte.to_N b0 in
      if n0 <? 0x80 then tl <- decode r0 ;; Ok (n0 :: tl)
      else if n0 <? 0xC0 then Raise UnicodeDecodeError
      else if n0 <? 0xE0 then
        match r0 with
        | b1 :: r1 =>
            let n1 := Byte.to_N b1 in
            let c := (n0 - 0xC0) * 64 + (n1 - 0x80) in
            if is_cont n1 && (0x80 <=? c)
            then tl <- decode r1 ;; Ok (c :: tl)
            else Raise UnicodeDecodeError
        | _ => Raise UnicodeDecodeError
        end
      else if n0 <? 0xF0 then
        match r0 with
        | b1 :: b2 :: r2 =>
            let n1 := Byte.to_N b1 in
            let n2 := Byte.to_N b2 in
            let c := (n0 - 0xE0) * 4096 + (n1 - 0x80) * 64 + (n2 - 0x80) in
            if is_cont n1 && is_cont n2 && (0x800 <=? c)
               && negb ((0xD800 <=? c) && (c <=? 0xDFFF))
            then tl <- decode r2 ;; Ok (c :: tl)
            else Raise UnicodeDecodeError
        | _ => Raise UnicodeDecodeError
        end
      else if n0 <? 0xF8 then
        match r0 with
        | b1 :: b2 :: b3 :: r3 =>
            let n1 := Byte.to_N b1 in
            let n2 := Byte.to_N b2 in
            let n3 := Byte.to_N b3 in
            let c := (n0 - 0xF0) * 262144 + (n1 - 0x80) * 4096
                     + (n2 - 0x80) * 64 + (n3 - 0x80) in
            if is_cont n1 && is_cont n2 && is_cont n3
               && (0x10000 <=? c) && (c <? 0x110000)
            then tl <- decode r3 ;; Ok (c :: tl)
            else Raise UnicodeDecodeError
        | _ => Raise UnicodeDecodeError
        end
      else Raise UnicodeDecodeError
  end.

End UTF8.

(** [s.encode()] and [b.decode()] *)
Definition str_encode (s : str) : result bytes := UTF8.encode s.
Definition bytes_decode (b : bytes) : result str := UTF8.decode b.

(** A literal of the script's text, all of them ASCII. *)
Definition lit (s : string) : str := map Byte.to_N (list_byte_of_string s).

(** [s * n] on strings *)
Definition str_repeat (s : str) (n : nat) : str := List.concat (repeat s n).

(** ** The script, line by line *)

(** Lines 12 and 15: the two constants. *)
Definition OPENROUTER_KEY : str :=
  lit "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".

Definition SECRET : str := lit "notebook_llm_global_secret_key_2024".

(** The operating system's random source, as the stream of bytes it
    will hand out; [os.urandom(n)] takes the first [n]. *)
Definition entropy : Type := nat -> byte.

Definition os_urandom (n : nat) (e : entropy) : bytes := map e (seq 0 n).

(** Line 18: [key_bytes = hashlib.sha256(SECRET.encode()).digest()] *)
Definition key_bytes (secret : str) : result bytes :=
  data <- str_encode secret ;; Ok (hashlib_sha256_digest data).

(** Line 21: [iv = os.urandom(16)] *)
Definition iv (e : entropy) : bytes := os_urandom 16 e.

(** Lines 24-28: [cipher = Cipher(algorithms.AES(key_bytes), modes.CBC(iv))] *)
Definition cipher (key v : bytes) : result Cipher :=
  a <- algorithms_AES key ;;
  new_Cipher a {| initialization_vector := v |}.

(** Lines 31 and 38:
    [encrypted = encryptor.update(padded_plaintext) + encryptor.finalize()] *)
Definition encrypted (c : Cipher) (padded : bytes) : result bytes :=
  let '(ctx, out) := update (encryptor c) padded in
  fin <- finalize ctx ;;
  Ok (out ++ fin).

(** Line 41: [combined = iv + encrypted] *)
Definition combined (v ct : bytes) : bytes := v ++ ct.

(** Line 44: [encrypted_base64 = base64.b64encode(combined).decode()] *)
Definition encrypted_base64 (comb : bytes) : result str :=
  bytes_decode (Base64.b64encode comb).

(** [print(line)] appends the line and a newline to standard output. *)
Definition print (line : str) (out : str) : str := out ++ line ++ [10%N].

(** Lines 46-60, on an empty standard output. *)
Definition report (b64 : str) : str :=
  let out := [] in
  let out := print (str_repeat (lit "=") 60) out in
  let out := print (lit "ENCRYPTED OPENROUTER API KEY") out in
  let out := print (str_repeat (lit "=") 60) out in
  let out := print [] out in
  let out := print (lit "Run this SQL in Neon Console:") out in
  let out := print [] out in
  let out := print (lit "INSERT INTO api_keys (service_name, encrypted_value, description, updated_at)") out in
  let out := print (lit "VALUES ('openrouter', '" ++ b64
                      ++ lit "', 'OpenRouter API Key', CURRENT_TIMESTAMP)") out in
  let out := print (lit "ON CONFLICT (service_name)") out in
  let out := print (lit "DO UPDATE SET encrypted_value = EXCLUDED.encrypted_value, updated_at = CURRENT_TIMESTAMP;") out in
  let out := print [] out in
  let out := print (str_repeat (lit "=") 60) out in
  let out := print (lit "Verify with:") out in
  let out := print (lit "SELECT service_name, description, updated_at FROM api_keys;") out in
  let out := print (str_repeat (lit "=") 60) out in
  out.

(** The module-level variables after a run, and what was printed. *)
Record run : Type :=
  { run_key_bytes : bytes;
    run_iv : bytes;
    run_cipher : Cipher;
    run_plaintext : bytes;
    run_padding_length : Z;
    run_padded_plaintext : bytes;
    run_encrypted : bytes;
    run_combined : bytes;
    run_encrypted_base64 : str;
    run_stdout : str }.

(** The whole script, for any two constants and any random source; an
    exception ends the run before anything is printed. *)
Definition script (openrouter_key secret : str) (e : entropy) : result run :=
  kb <- key_bytes secret ;;
  let v := iv e in
  c <- cipher kb v ;;
  pt <- str_encode openrouter_key ;;
  let n := padding_length pt in
  padded <- padded_plaintext pt ;;
  ct <- encrypted c padded ;;
  let comb := combined v ct in
  b64 <- encrypted_base64 comb ;;
  Ok {| run_key_bytes := kb;
        run_iv := v;
        run_cipher := c;
        run_plaintext := pt;
        run_padding_length := n;
        run_padded_plaintext := padded;
        run_encrypted := ct;
        run_combined := comb;
        run_encrypted_base64 := b64;
        run_stdout := report b64 |}.

Definition main (e : entropy) : result run := script OPENROUTER_KEY SECRET e.

(** ** The decryptor

    Modelled from the spec: the cooperating decryptor is the
    application's and is not in this script.  The spec asks that it
    holds the same passphrase and reverses the encryptor; it is modelled
    as the inverse of each step in turn: base64 decoding, the first
    sixteen bytes as IV, AES-CBC decryption under the SHA-256 of the
    passphrase, removal of the PKCS#7 padding, UTF-8 decoding. *)

(** Modelled from the spec: PKCS#7 unpadding, the last byte N says that
    the last N bytes, all of value N, are padding. *)
Definition unpad (padded : bytes) : result bytes :=
  match rev padded with
  | [] => Raise ValueError
  | b :: _ =>
      let n := Z.to_nat (byte_val b) in
      let k := (List.length padded - n)%nat in
      if Nat.leb 1 n && Nat.leb n 16 && Nat.leb n (List.length padded)
         && forallb (Byte.eqb b) (skipn k padded)
      then Ok (firstn k padded)
      else Raise ValueError
  end.

(** Modelled from the spec: CBC decryption of whole blocks. *)
Definition decrypted (c : Cipher) (data : bytes) : result bytes :=
  let '(cs, r) := split_blocks data in
  match r with
  | [] =>
      Ok (join_blocks
            (cbc_decrypt_blocks (key_expansion (aes_key (algorithm c)))
               (block_of_bytes (initialization_vector (mode c))) cs))
  | _ :: _ => Raise ValueError
  end.

(** Modelled from the spec: the decryptor. *)
Definition decrypt (b64 secret : str) : result str :=
  text <- str_encode b64 ;;
  comb <- Base64.b64decode text ;;
  kb <- key_bytes secret ;;
  c <- cipher kb (firstn 16 comb) ;;
  padded <- decrypted c (skipn 16 comb) ;;
  pt <- unpad padded ;;
  bytes_decode pt.

(** What [encrypted] returns on block-aligned data: the CBC encryption
    of its blocks under the expanded key, chained from the IV. *)
Definition cbc_ciphertext (c : Cipher) (ps : list block) : list block :=
  fst (cbc_encrypt_blocks (key_expansion (aes_key (algorithm c)))
         (block_of_bytes (initialization_vector (mode c))) ps).

(** The code points [str.encode] accepts: Unicode scalar values. *)
Definition is_scalar (c : N) : bool :=
  ((c <? 0xD800) || ((0xDFFF <? c) && (c <? 0x110000)))%N.

(** Two random sources for concrete runs: the same byte for ever, and
    a counter. *)
Definition entropy_const (b : byte) : entropy := fun _ => b.

Definition entropy_count : entropy := fun i => byte_of_N (N.of_nat i).

(** Standard output as the lines printed, each followed by a newline. *)
Definition unlines (ls : list str) : str :=
  List.concat (map (fun l => l ++ [10%N]) ls).

(** Bytes written as hexadecimal digits, for the published vectors. *)
Definition hex_digit (n : N) : N :=
  (if n <? 10 then 48 + n else 87 + n)%N.

Definition hex (l : bytes) : str :=
  flat_map (fun b => [hex_digit (Byte.to_N b / 16); hex_digit (Byte.to_N b mod 16)]%N) l.

(** What is printed before and after the encrypted value. *)
Definition stdout_before_value : str :=
  unlines
    [ lit "============================================================";
      lit "ENCRYPTED OPENROUTER API KEY";
      lit "============================================================";
      [];
      lit "Run this SQL in Neon Console:";
      [];
      lit "INSERT INTO api_keys (service_name, encrypted_value, description, updated_at)" ]
  ++ lit "VALUES ('openrouter', '".

Definition stdout_after_value : str :=
  lit "', 'OpenRouter API Key', CURRENT_TIMESTAMP)" ++ [10%N]
  ++ unlines
       [ lit "ON CONFLICT (service_name)";
         lit "DO UPDATE SET encrypted_value = EXCLUDED.encrypted_value, updated_at = CURRENT_TIMESTAMP;";
         [];
         lit "============================================================";
         lit "Verify with:";
         lit "SELECT service_name, description, updated_at FROM api_keys;";
         lit "============================================================" ].

(** ** Facts about padding *)

Lemma padding_length_range (plaintext : bytes) :
  1 <= padding_length plaintext <= 16.
Proof.
  unfold padding_length.
  pose proof (Z.mod_pos_bound (len plaintext) 16 ltac:(lia)). lia.
Qed.

Lemma byte_of_int_ok (v : Z) :
  0 <= v < 256 -> exists b, byte_of_int v = Ok b /\ byte_val b = v.
Proof.
  intros Hv. unfold byte_of_int.
  replace ((0 <=? v) && (v <? 256)) with true
    by (symmetry; apply andb_true_iff; split; [apply Z.leb_le | apply Z.ltb_lt]; lia).
  destruct (Byte.of_N (Z.to_N v)) as [b|] eqn:E.
  - exists b. split; [reflexivity|].
    unfold byte_val. apply Byte.to_of_N in E. rewrite E. lia.
  - apply Byte.of_N_None_iff in E. lia.
Qed.

Lemma bytes_of_ints_repeat (v : Z) (b : byte) (n : nat) :
  byte_of_int v = Ok b ->
  bytes_of_ints (repeat v n) = Ok (repeat b n).
Proof.
  intros Hb. unfold bytes_of_ints.
  induction n as [|n IH]; simpl; [reflexivity|].
  rewrite Hb. simpl. rewrite IH. reflexivity.
Qed.

(** The padding the script appends: [pad_byte] repeated [padding_length]
    times, where [pad_byte] has value [padding_length]. *)
Lemma padded_plaintext_eq (plaintext : bytes) :
  exists b,
    byte_val b = padding_length plaintext /\
    padded_plaintext plaintext =
      Ok (plaintext ++ repeat b (Z.to_nat (padding_length plaintext))).
Proof.
  pose proof (padding_length_range plaintext) as Hr.
  destruct (byte_of_int_ok (padding_length plaintext) ltac:(lia)) as (b & Hb & Hv).
  exists b. split; [exact Hv|].
  unfold padded_plaintext, list_repeat.
  rewrite (bytes_of_ints_repeat _ b _ Hb). reflexivity.
Qed.

(** ** Bytes under xor *)

Ltac byte_bits a :=
  let bs := fresh "bs" in
  let E := fresh "E" in
  generalize (Byte.of_bits_to_bits a); generalize (Byte.to_bits a);
  intros bs E; subst a;
  destruct bs as [? [? [? [? [? [? [? ?]]]]]]].

Ltac bools :=
  repeat match goal with
         | |- context [xorb ?b _] => is_var b; destruct b
         | |- context [xorb _ ?b] => is_var b; destruct b
         end; reflexivity.

Lemma bxor_assoc (a b c : byte) : bxor a (bxor b c) = bxor (bxor a b) c.
Proof.
  byte_bits a; byte_bits b; byte_bits c.
  unfold bxor. rewrite !Byte.to_bits_of_bits. cbv beta iota.
  rewrite !xorb_assoc. reflexivity.
Qed.

Lemma bxor_comm (a b : byte) : bxor a b = bxor b a.
Proof.
  byte_bits a; byte_bits b.
  unfold bxor. rewrite !Byte.to_bits_of_bits. cbv beta iota.
  apply f_equal; repeat (apply f_equal2; [apply xorb_comm|]); apply xorb_comm.
Qed.

Lemma bxor_0_l (a : byte) : bxor x00 a = a.
Proof. destruct a; reflexivity. Qed.

Lemma bxor_0_r (a : byte) : bxor a x00 = a.
Proof. destruct a; reflexivity. Qed.

Lemma bxor_nilpotent (a : byte) : bxor a a = x00.
Proof. destruct a; reflexivity. Qed.

Lemma bxor_cancel_r (a b : byte) : bxor (bxor a b) b = a.
Proof. rewrite <- bxor_assoc, bxor_nilpotent. apply bxor_0_r. Qed.

#[local] Instance bxor_Assoc : Associative eq bxor.
Proof. exact bxor_assoc. Qed.

#[local] Instance bxor_Comm : Commutative eq bxor.
Proof. exact bxor_comm. Qed.

#[local] Instance bxor_Unit : Unit eq bxor x00.
Proof. split; intros a; [apply bxor_0_l | apply bxor_0_r]. Qed.

Lemma xtime_bxor (a b : byte) : xtime (bxor a b) = bxor (xtime a) (xtime b).
Proof.
  byte_bits a; byte_bits b.
  unfold xtime, bxor. rewrite !Byte.to_bits_of_bits. cbv beta iota.
  apply f_equal; repeat (apply f_equal2; [bools|]); bools.
Qed.

Lemma scale_bxor (c : bool) (a b : byte) :
  scale c (bxor a b) = bxor (scale c a) (scale c b).
Proof. destruct c; reflexivity. Qed.

(** Multiplication by a constant is additive. *)
Lemma gmul_bxor_l (a b c : byte) : gmul (bxor a b) c = bxor (gmul a c) (gmul b c).
Proof.
  unfold gmul.
  destruct (Byte.to_bits c) as [c0 [c1 [c2 [c3 [c4 [c5 [c6 c7]]]]]]].
  cbv zeta. rewrite !xtime_bxor, !scale_bxor.
  aac_reflexivity.
Qed.

(** ** The round transformations are invertible *)

Lemma inv_sub_byte_sub_byte (b : byte) : inv_sub_byte (sub_byte b) = b.
Proof. destruct b; vm_compute; reflexivity. Qed.

Lemma xor_word_assoc (u v w : word) :
  xor_word u (xor_word v w) = xor_word (xor_word u v) w.
Proof.
  destruct u as [[[u0 u1] u2] u3], v as [[[v0 v1] v2] v3], w as [[[w0 w1] w2] w3].
  simpl. rewrite !bxor_assoc. reflexivity.
Qed.

Lemma xor_word_cancel_r (u v : word) : xor_word (xor_word u v) v = u.
Proof.
  destruct u as [[[u0 u1] u2] u3], v as [[[v0 v1] v2] v3].
  simpl. rewrite !bxor_cancel_r. reflexivity.
Qed.

Lemma xor_word_0_r (u : word) : xor_word u zero_word = u.
Proof.
  destruct u as [[[u0 u1] u2] u3]. simpl. rewrite !bxor_0_r. reflexivity.
Qed.

Lemma xor_block_cancel_r (s k : block) : xor_block (xor_block s k) k = s.
Proof.
  destruct s as [[[s0 s1] s2] s3], k as [[[k0 k1] k2] k3].
  simpl. rewrite !xor_word_cancel_r. reflexivity.
Qed.

Lemma add_round_key_involutive (s k : block) :
  add_round_key (add_round_key s k) k = s.
Proof. apply xor_block_cancel_r. Qed.

Lemma inv_sub_word_sub_word (u : word) : inv_sub_word (sub_word u) = u.
Proof.
  destruct u as [[[u0 u1] u2] u3]. simpl.
  rewrite !inv_sub_byte_sub_byte. reflexivity.
Qed.

Lemma inv_sub_bytes_sub_bytes (s : block) : inv_sub_bytes (sub_bytes s) = s.
Proof.
  destruct s as [[[s0 s1] s2] s3]. simpl.
  rewrite !inv_sub_word_sub_word. reflexivity.
Qed.

Lemma inv_shift_rows_shift_rows (s : block) : inv_shift_rows (shift_rows s) = s.
Proof.
  destruct s as [[[[[[a0 a1] a2] a3] [[[b0 b1] b2] b3]]
                  [[[c0 c1] c2] c3]] [[[d0 d1] d2] d3]].
  reflexivity.
Qed.

(** MixColumns and its inverse are additive, so their composition is
    settled by its values on the words with a single non-zero byte. *)
Lemma mix_column_xor (u v : word) :
  mix_column (xor_word u v) = xor_word (mix_column u) (mix_column v).
Proof.
  destruct u as [[[u0 u1] u2] u3], v as [[[v0 v1] v2] v3].
  unfold mix_column, xor_word. rewrite !gmul_bxor_l.
  repeat (apply f_equal2; [|aac_reflexivity]). aac_reflexivity.
Qed.

Lemma inv_mix_column_xor (u v : word) :
  inv_mix_column (xor_word u v) =
  xor_word (inv_mix_column u) (inv_mix_column v).
Proof.
  destruct u as [[[u0 u1] u2] u3], v as [[[v0 v1] v2] v3].
  unfold inv_mix_column, xor_word. rewrite !gmul_bxor_l.
  repeat (apply f_equal2; [|aac_reflexivity]). aac_reflexivity.
Qed.

Lemma inv_mix_mix_0 (a : byte) :
  inv_mix_column (mix_column (a, x00, x00, x00)) = (a, x00, x00, x00).
Proof. destruct a; vm_compute; reflexivity. Qed.

Lemma inv_mix_mix_1 (a : byte) :
  inv_mix_column (mix_column (x00, a, x00, x00)) = (x00, a, x00, x00).
Proof. destruct a; vm_compute; reflexivity. Qed.

Lemma inv_mix_mix_2 (a : byte) :
  inv_mix_column (mix_column (x00, x00, a, x00)) = (x00, x00, a, x00).
Proof. destruct a; vm_compute; reflexivity. Qed.

Lemma inv_mix_mix_3 (a : byte) :
  inv_mix_column (mix_column (x00, x00, x00, a)) = (x00, x00, x00, a).
Proof. destruct a; vm_compute; reflexivity. Qed.

Lemma word_split (a b c d : byte) :
  (a, b, c, d) =
  xor_word (a, x00, x00, x00)
    (xor_word (x00, b, x00, x00)
       (xor_word (x00, x00, c, x00) (x00, x00, x00, d))).
Proof.
  simpl. rewrite !bxor_0_l, !bxor_0_r. reflexivity.
Qed.

Lemma inv_mix_column_mix_column (u : word) : inv_mix_column (mix_column u) = u.
Proof.
  destruct u as [[[a b] c] d].
  rewrite (word_split a b c d) at 1.
  rewrite !mix_column_xor, !inv_mix_column_xor.
  rewrite inv_mix_mix_0, inv_mix_mix_1, inv_mix_mix_2, inv_mix_mix_3.
  symmetry. apply word_split.
Qed.

Lemma inv_mix_columns_mix_columns (s : block) :
  inv_mix_columns (mix_columns s) = s.
Proof.
  destruct s as [[[s0 s1] s2] s3]. simpl.
  rewrite !inv_mix_column_mix_column. reflexivity.
Qed.

Lemma inv_round_round (k s : block) : inv_round k (round k s) = s.
Proof.
  unfold inv_round, round.
  rewrite add_round_key_involutive, inv_mix_columns_mix_columns,
    inv_shift_rows_shift_rows, inv_sub_bytes_sub_bytes.
  reflexivity.
Qed.

Lemma inv_final_round_final_round (k s : block) :
  inv_final_round k (final_round k s) = s.
Proof.
  unfold inv_final_round, final_round.
  rewrite add_round_key_involutive, inv_shift_rows_shift_rows,
    inv_sub_bytes_sub_bytes.
  reflexivity.
Qed.

Lemma inv_rounds_rounds (ks : list block) (s : block) :
  inv_rounds ks (rounds ks s) = s.
Proof.
  revert s. induction ks as [|k ks IH]; intros s; [reflexivity|].
  destruct ks as [|k' ks'].
  - apply inv_final_round_final_round.
  - change (inv_round k (inv_rounds (k' :: ks') (rounds (k' :: ks') (round k s))) = s).
    rewrite IH. apply inv_round_round.
Qed.

(** The inverse cipher undoes the cipher, whatever the round keys. *)
Lemma inv_cipher_block_cipher_block (rks : list block) (s : block) :
  inv_cipher_block rks (cipher_block rks s) = s.
Proof.
  destruct rks as [|k0 ks]; [reflexivity|]. simpl.
  rewrite inv_rounds_rounds. apply add_round_key_involutive.
Qed.

(** ** Blocks and byte strings *)

Lemma bytes_of_block_length (b : block) : List.length (bytes_of_block b) = 16%nat.
Proof.
  destruct b as [[[[[[a0 a1] a2] a3] [[[b0 b1] b2] b3]]
                  [[[c0 c1] c2] c3]] [[[d0 d1] d2] d3]].
  reflexivity.
Qed.

Lemma join_blocks_length (bs : list block) :
  List.length (join_blocks bs) = (16 * List.length bs)%nat.
Proof.
  unfold join_blocks. induction bs as [|b bs IH]; [reflexivity|].
  simpl flat_map. rewrite length_app, bytes_of_block_length, IH. simpl. lia.
Qed.

Lemma split_blocks_short (r : bytes) :
  (List.length r < 16)%nat -> split_blocks r = ([], r).
Proof.
  intros H.
  do 16 (destruct r as [|? r]; [reflexivity|]).
  simpl in H. lia.
Qed.

Lemma split_blocks_join (bs : list block) (r : bytes) :
  (List.length r < 16)%nat -> split_blocks (join_blocks bs ++ r) = (bs, r).
Proof.
  intros H. induction bs as [|b bs IH].
  - apply split_blocks_short, H.
  - destruct b as [[[[[[a0 a1] a2] a3] [[[b0 b1] b2] b3]]
                    [[[c0 c1] c2] c3]] [[[d0 d1] d2] d3]].
    unfold join_blocks in *. simpl. simpl in IH. rewrite IH. reflexivity.
Qed.

(** A byte string of 16 n bytes splits into n blocks, nothing left. *)
Lemma split_blocks_aligned (n : nat) (l : bytes) :
  List.length l = (16 * n)%nat ->
  exists bs, split_blocks l = (bs, []) /\ join_blocks bs = l
             /\ List.length bs = n.
Proof.
  revert l. induction n as [|n IH]; intros l H.
  - destruct l; [|simpl in H; lia]. exists []. repeat split.
  - do 16 (destruct l as [|? l]; [simpl in H; lia|]).
    destruct (IH l) as (bs & Hs & Hj & Hl); [simpl in H; lia|].
    eexists (_ :: bs). simpl. rewrite Hs. repeat split.
    + unfold join_blocks in *. simpl. rewrite Hj. reflexivity.
    + simpl. rewrite Hl. reflexivity.
Qed.

(** ** CBC mode *)

Lemma cbc_encrypt_blocks_length (rks : list block) (ch : block) (ps : list block) :
  List.length (fst (cbc_encrypt_blocks rks ch ps)) = List.length ps.
Proof.
  revert ch. induction ps as [|p ps IH]; intros ch; [reflexivity|].
  simpl. specialize (IH (cipher_block rks (xor_block p ch))).
  destruct (cbc_encrypt_blocks rks (cipher_block rks (xor_block p ch)) ps).
  simpl in *. rewrite IH. reflexivity.
Qed.

Lemma cbc_decrypt_encrypt (rks : list block) (ch : block) (ps : list block) :
  cbc_decrypt_blocks rks ch (fst (cbc_encrypt_blocks rks ch ps)) = ps.
Proof.
  revert ch. induction ps as [|p ps IH]; intros ch; [reflexivity|].
  simpl. specialize (IH (cipher_block rks (xor_block p ch))).
  destruct (cbc_encrypt_blocks rks (cipher_block rks (xor_block p ch)) ps).
  simpl in *. rewrite IH, inv_cipher_block_cipher_block, xor_block_cancel_r.
  reflexivity.
Qed.

Lemma encrypted_aligned (c : Cipher) (n : nat) (padded : bytes) :
  List.length padded = (16 * n)%nat ->
  exists ps, join_blocks ps = padded /\ List.length ps = n /\
             encrypted c padded = Ok (join_blocks (cbc_ciphertext c ps)).
Proof.
  intros H. destruct (split_blocks_aligned n padded H) as (ps & Hs & Hj & Hl).
  exists ps. repeat split; [exact Hj | exact Hl |].
  unfold encrypted, update, encryptor, cbc_ciphertext. simpl.
  rewrite Hs.
  destruct (cbc_encrypt_blocks _ _ ps) as [cs last]. simpl.
  rewrite app_nil_r. reflexivity.
Qed.

Lemma decrypted_cbc_ciphertext (c : Cipher) (ps : list block) :
  decrypted c (join_blocks (cbc_ciphertext c ps)) = Ok (join_blocks ps).
Proof.
  unfold decrypted.
  rewrite <- (app_nil_r (join_blocks (cbc_ciphertext c ps))).
  rewrite split_blocks_join by (simpl; lia).
  unfold cbc_ciphertext. rewrite cbc_decrypt_encrypt. reflexivity.
Qed.

(** ** Padding and its removal *)

Lemma padded_plaintext_length (plaintext padded : bytes) :
  padded_plaintext plaintext = Ok padded ->
  List.length padded = (16 * (List.length plaintext / 16 + 1))%nat.
Proof.
  intros H. destruct (padded_plaintext_eq plaintext) as (b & _ & E).
  rewrite E in H. injection H as <-.
  rewrite length_app, repeat_length. unfold padding_length, len.
  pose proof (Nat.div_mod_eq (List.length plaintext) 16).
  pose proof (Nat.mod_upper_bound (List.length plaintext) 16 ltac:(lia)).
  pose proof (Nat2Z.inj_mod (List.length plaintext) 16) as Hm.
  change (Z.of_nat 16) with 16 in Hm. rewrite <- Hm.
  lia.
Qed.

Lemma forallb_repeat_eqb (b : byte) (k : nat) :
  forallb (Byte.eqb b) (repeat b k) = true.
Proof.
  induction k as [|k IH]; [reflexivity|]. simpl.
  rewrite IH, (Byte.byte_dec_lb eq_refl). reflexivity.
Qed.

Lemma unpad_app_repeat (pt : bytes) (b : byte) (k : nat) :
  (1 <= k <= 16)%nat -> byte_val b = Z.of_nat k ->
  unpad (pt ++ repeat b k) = Ok pt.
Proof.
  intros Hk Hb. unfold unpad.
  assert (Hrev : exists tl, rev (pt ++ repeat b k) = b :: tl).
  { destruct k as [|k]; [lia|].
    change (repeat b (S k)) with (b :: repeat b k).
    rewrite repeat_cons, app_assoc, rev_unit. eauto. }
  destruct Hrev as (tl & ->).
  rewrite Hb, Nat2Z.id, length_app, repeat_length.
  replace (List.length pt + k - k)%nat with (List.length pt) by lia.
  replace (Nat.leb 1 k) with true by (symmetry; apply Nat.leb_le; lia).
  replace (Nat.leb k 16) with true by (symmetry; apply Nat.leb_le; lia).
  replace (Nat.leb k (List.length pt + k)) with true
    by (symmetry; apply Nat.leb_le; lia).
  rewrite skipn_app, skipn_all, Nat.sub_diag, firstn_app, firstn_all, Nat.sub_diag.
  cbn [skipn firstn app andb]. rewrite app_nil_r, forallb_repeat_eqb.
  reflexivity.
Qed.

Lemma unpad_padded_plaintext (plaintext padded : bytes) :
  padded_plaintext plaintext = Ok padded -> unpad padded = Ok plaintext.
Proof.
  intros H. destruct (padded_plaintext_eq plaintext) as (b & Hb & E).
  rewrite E in H. injection H as <-.
  pose proof (padding_length_range plaintext).
  apply unpad_app_repeat; [lia|]. rewrite Hb. lia.
Qed.

(** ** Bytes and numbers *)

Ltac ndiv := zify; Z.to_euclidean_division_equations; lia.

Ltac ncases :=
  repeat (match goal with
          | |- context [N.leb ?a ?b] => destruct (N.leb_spec a b)
          | |- context [N.ltb ?a ?b] => destruct (N.ltb_spec a b)
          | |- context [N.eqb ?a ?b] => destruct (N.eqb_spec a b)
          end; try lia).

Lemma Ok_inj {A : Type} (a b : A) : Ok a = Ok b -> a = b.
Proof. intros E. injection E as E. exact E. Qed.

Lemma to_N_lt (b : byte) : (Byte.to_N b < 256)%N.
Proof. pose proof (Byte.to_N_bounded b). lia. Qed.

Lemma to_N_byte_of_N (n : N) : (n < 256)%N -> Byte.to_N (byte_of_N n) = n.
Proof.
  intros H. unfold byte_of_N. rewrite N.mod_small by exact H.
  destruct (Byte.of_N n) as [b|] eqn:E.
  - apply Byte.to_of_N, E.
  - apply Byte.of_N_None_iff in E. lia.
Qed.

Lemma byte_of_N_to_N (b : byte) : byte_of_N (Byte.to_N b) = b.
Proof.
  unfold byte_of_N. rewrite N.mod_small by apply to_N_lt.
  rewrite Byte.of_to_N. reflexivity.
Qed.

Lemma to_N_inj (a b : byte) : Byte.to_N a = Byte.to_N b -> a = b.
Proof.
  intros H. rewrite <- (byte_of_N_to_N a), <- (byte_of_N_to_N b), H. reflexivity.
Qed.

Lemma eqb_to_N_neq (a b : byte) : Byte.to_N a <> Byte.to_N b -> Byte.eqb a b = false.
Proof.
  intros H. destruct (Byte.eqb a b) eqn:E; [|reflexivity].
  apply Byte.byte_dec_bl in E. subst. contradiction.
Qed.

(** ** Base64 *)

Module Base64Facts.
Import Base64.
Local Open Scope N_scope.

Lemma char_of_sextet_val (i : N) :
  i < 64 ->
  let n := Byte.to_N (char_of_sextet i) in
  (i < 26 /\ n = 65 + i) \/ (26 <= i < 52 /\ n = 71 + i) \/
  (52 <= i < 62 /\ n = i - 4) \/ (i = 62 /\ n = 43) \/ (i = 63 /\ n = 47).
Proof.
  intros H n. subst n. unfold char_of_sextet.
  rewrite to_N_byte_of_N by (ncases; lia).
  ncases.
Qed.

Ltac sextet_cases i H :=
  let Hi := fresh "Hi" in
  let Hn := fresh "Hn" in
  destruct (char_of_sextet_val i H) as
    [[Hi Hn]|[[Hi Hn]|[[Hi Hn]|[[Hi Hn]|[Hi Hn]]]]];
  rewrite Hn; clear Hn.

Lemma sextet_of_char_of_sextet (i : N) :
  i < 64 -> sextet_of_char (char_of_sextet i) = Some i.
Proof.
  intros H. unfold sextet_of_char.
  sextet_cases i H; ncases; cbn [andb]; f_equal; lia.
Qed.

Lemma char_of_sextet_in_alphabet (i : N) :
  i < 64 -> in_alphabet (Byte.to_N (char_of_sextet i)) = true.
Proof.
  intros H. unfold in_alphabet.
  sextet_cases i H; ncases; reflexivity.
Qed.

Lemma char_of_sextet_not_pad (i : N) :
  i < 64 -> Byte.eqb (char_of_sextet i) pad_char = false.
Proof.
  intros H. apply eqb_to_N_neq. change (Byte.to_N pad_char) with 61.
  sextet_cases i H; lia.
Qed.

Lemma pad_char_in_alphabet : in_alphabet (Byte.to_N pad_char) = true.
Proof. reflexivity. Qed.

Lemma in_alphabet_ascii (n : N) : in_alphabet n = true -> n < 128.
Proof.
  unfold in_alphabet. intros E.
  destruct (N.lt_ge_cases n 128) as [|G]; [assumption|exfalso].
  revert E. ncases.
Qed.

Lemma in_alphabet_not_quote (n : N) : in_alphabet n = true -> n <> 39.
Proof. intros E ->. discriminate E. Qed.

(** The four sextets of three bytes are below 64. *)
Lemma sextets_lt (a b c : byte) :
  let a := Byte.to_N a in
  let b := Byte.to_N b in
  let c := Byte.to_N c in
  a / 4 < 64 /\ (a mod 4) * 16 + b / 16 < 64 /\
  (b mod 16) * 4 + c / 64 < 64 /\ c mod 64 < 64 /\
  (a mod 4) * 16 < 64 /\ (b mod 16) * 4 < 64.
Proof.
  cbv zeta. pose proof (to_N_lt a). pose proof (to_N_lt b). pose proof (to_N_lt c).
  repeat split; ndiv.
Qed.

Lemma decode3_sextets (a b c : byte) :
  let x := Byte.to_N a in
  let y := Byte.to_N b in
  let z := Byte.to_N c in
  decode3 (x / 4) ((x mod 4) * 16 + y / 16) ((y mod 16) * 4 + z / 64) (z mod 64)
  = [a; b; c].
Proof.
  cbv zeta. pose proof (to_N_lt a). pose proof (to_N_lt b). pose proof (to_N_lt c).
  unfold decode3.
  replace (Byte.to_N a / 4 * 4 + (Byte.to_N a mod 4 * 16 + Byte.to_N b / 16) / 16)
    with (Byte.to_N a) by ndiv.
  replace ((Byte.to_N a mod 4 * 16 + Byte.to_N b / 16) mod 16 * 16
           + (Byte.to_N b mod 16 * 4 + Byte.to_N c / 64) / 4)
    with (Byte.to_N b) by ndiv.
  replace ((Byte.to_N b mod 16 * 4 + Byte.to_N c / 64) mod 4 * 64 + Byte.to_N c mod 64)
    with (Byte.to_N c) by ndiv.
  rewrite !byte_of_N_to_N. reflexivity.
Qed.

Lemma decode2_sextets (a b : byte) :
  let x := Byte.to_N a in
  let y := Byte.to_N b in
  decode2 (x / 4) ((x mod 4) * 16 + y / 16) ((y mod 16) * 4) = [a; b].
Proof.
  cbv zeta. pose proof (to_N_lt a). pose proof (to_N_lt b).
  unfold decode2.
  replace (Byte.to_N a / 4 * 4 + (Byte.to_N a mod 4 * 16 + Byte.to_N b / 16) / 16)
    with (Byte.to_N a) by ndiv.
  replace ((Byte.to_N a mod 4 * 16 + Byte.to_N b / 16) mod 16 * 16
           + Byte.to_N b mod 16 * 4 / 4)
    with (Byte.to_N b) by ndiv.
  rewrite !byte_of_N_to_N. reflexivity.
Qed.

Lemma decode1_sextets (a : byte) :
  let x := Byte.to_N a in
  decode1 (x / 4) ((x mod 4) * 16) = [a].
Proof.
  cbv zeta. pose proof (to_N_lt a). unfold decode1.
  replace (Byte.to_N a / 4 * 4 + Byte.to_N a mod 4 * 16 / 16)
    with (Byte.to_N a) by ndiv.
  rewrite byte_of_N_to_N. reflexivity.
Qed.

Lemma b64encode_cons3 (a b c : byte) (rest : bytes) :
  b64encode (a :: b :: c :: rest) = encode3 a b c ++ b64encode rest.
Proof. reflexivity. Qed.

Lemma b64encode_nonempty (x : byte) (l : bytes) :
  exists c tl, b64encode (x :: l) = c :: tl.
Proof.
  destruct l as [|y [|z rest]]; cbn [b64encode];
    unfold encode1, encode2, encode3; cbn [app]; eauto.
Qed.

Lemma b64decode_last (c0 c1 c2 c3 : byte) :
  b64decode [c0; c1; c2; c3] = decode_last c0 c1 c2 c3.
Proof. reflexivity. Qed.

Lemma b64decode_more (c0 c1 c2 c3 c4 : byte) (tl : bytes) :
  b64decode (c0 :: c1 :: c2 :: c3 :: c4 :: tl) =
  match sextet_of_char c0, sextet_of_char c1,
        sextet_of_char c2, sextet_of_char c3 with
  | Some s0, Some s1, Some s2, Some s3 =>
      bind (b64decode (c4 :: tl)) (fun t => Ok (decode3 s0 s1 s2 s3 ++ t))
  | _, _, _, _ => Raise BinasciiError
  end.
Proof. reflexivity. Qed.

Lemma b64decode_encode_upto (n : nat) (l : bytes) :
  (List.length l <= n)%nat -> b64decode (b64encode l) = Ok l.
Proof.
  revert l. induction n as [|n IH]; intros l H.
  - destruct l; [reflexivity | simpl in H; lia].
  - destruct l as [|a [|b [|c rest]]].
    + reflexivity.
    + destruct (sextets_lt a a a) as (H0 & _ & _ & _ & H1 & _).
      cbn [b64encode]; unfold encode1. rewrite b64decode_last. unfold decode_last.
      rewrite !sextet_of_char_of_sextet by assumption.
      rewrite (Byte.byte_dec_lb (eq_refl pad_char)).
      rewrite decode1_sextets. reflexivity.
    + destruct (sextets_lt a b b) as (H0 & H1 & _ & _ & _ & H2).
      cbn [b64encode]; unfold encode2. rewrite b64decode_last. unfold decode_last.
      rewrite !sextet_of_char_of_sextet by assumption.
      rewrite (Byte.byte_dec_lb (eq_refl pad_char)).
      rewrite char_of_sextet_not_pad by assumption.
      rewrite decode2_sextets. reflexivity.
    + destruct (sextets_lt a b c) as (H0 & H1 & H2 & H3 & _ & _).
      rewrite b64encode_cons3. unfold encode3. cbn [app].
      destruct rest as [|x rest].
      * cbn [b64encode]. rewrite b64decode_last. unfold decode_last.
        rewrite !sextet_of_char_of_sextet by assumption.
        rewrite !char_of_sextet_not_pad by assumption.
        rewrite decode3_sextets. reflexivity.
      * assert (Hr : b64decode (b64encode (x :: rest)) = Ok (x :: rest))
          by (apply IH; simpl in *; lia).
        destruct (b64encode_nonempty x rest) as (c4 & tl & E).
        rewrite E in *. rewrite b64decode_more.
        rewrite !sextet_of_char_of_sextet by assumption.
        rewrite Hr. cbn [bind]. rewrite decode3_sextets. reflexivity.
Qed.

Lemma b64decode_b64encode (l : bytes) : b64decode (b64encode l) = Ok l.
Proof. apply (b64decode_encode_upto (List.length l)). lia. Qed.

Lemma b64encode_alphabet_upto (n : nat) (l : bytes) :
  (List.length l <= n)%nat ->
  Forall (fun c => in_alphabet (Byte.to_N c) = true) (b64encode l).
Proof.
  revert l. induction n as [|n IH]; intros l H.
  - destruct l; [constructor | simpl in H; lia].
  - destruct l as [|a [|b [|c rest]]].
    + constructor.
    + destruct (sextets_lt a a a) as (H0 & _ & _ & _ & H1 & _).
      cbn [b64encode]; unfold encode1.
      repeat constructor; apply char_of_sextet_in_alphabet; assumption.
    + destruct (sextets_lt a b b) as (H0 & H1 & _ & _ & _ & H2).
      cbn [b64encode]; unfold encode2.
      repeat constructor; apply char_of_sextet_in_alphabet; assumption.
    + destruct (sextets_lt a b c) as (H0 & H1 & H2 & H3 & _ & _).
      rewrite b64encode_cons3. unfold encode3. cbn [app].
      repeat (constructor; [apply char_of_sextet_in_alphabet; assumption|]).
      apply IH. simpl in H. lia.
Qed.

Lemma b64encode_alphabet (l : bytes) :
  Forall (fun c => in_alphabet (Byte.to_N c) = true) (b64encode l).
Proof. apply (b64encode_alphabet_upto (List.length l)). lia. Qed.

End Base64Facts.

(** ** UTF-8 *)

Module UTF8Facts.
Import UTF8.
Local Open Scope N_scope.

Ltac nbool :=
  repeat match goal with
         | |- context [N.ltb ?a ?b] =>
             first [ replace (N.ltb a b) with true
                       by (symmetry; apply N.ltb_lt; ndiv)
                   | replace (N.ltb a b) with false
                       by (symmetry; apply N.ltb_ge; ndiv) ]
         | |- context [N.leb ?a ?b] =>
             first [ replace (N.leb a b) with true
                       by (symmetry; apply N.leb_le; ndiv)
                   | replace (N.leb a b) with false
                       by (symmetry; apply N.leb_gt; ndiv) ]
         end.

Lemma decode_1 (b0 : byte) (r : bytes) :
  Byte.to_N b0 < 0x80 ->
  decode (b0 :: r) = bind (decode r) (fun tl => Ok (Byte.to_N b0 :: tl)).
Proof.
  intros H. cbn [decode]. nbool. reflexivity.
Qed.

Lemma decode_2 (b0 b1 : byte) (r : bytes) :
  let c := (Byte.to_N b0 - 0xC0) * 64 + (Byte.to_N b1 - 0x80) in
  0xC0 <= Byte.to_N b0 < 0xE0 -> is_cont (Byte.to_N b1) = true -> 0x80 <= c ->
  decode (b0 :: b1 :: r) = bind (decode r) (fun tl => Ok (c :: tl)).
Proof.
  intros c H H1 Hc. subst c. cbn [decode]. rewrite H1. nbool. reflexivity.
Qed.

Lemma decode_3 (b0 b1 b2 : byte) (r : bytes) :
  let c := (Byte.to_N b0 - 0xE0) * 4096 + (Byte.to_N b1 - 0x80) * 64
           + (Byte.to_N b2 - 0x80) in
  0xE0 <= Byte.to_N b0 < 0xF0 ->
  is_cont (Byte.to_N b1) = true -> is_cont (Byte.to_N b2) = true ->
  0x800 <= c -> (c < 0xD800 \/ 0xDFFF < c) ->
  decode (b0 :: b1 :: b2 :: r) = bind (decode r) (fun tl => Ok (c :: tl)).
Proof.
  intros c H H1 H2 Hc Hs. cbn [decode]. rewrite H1, H2. fold c.
  replace (0x800 <=? c) with true by (symmetry; apply N.leb_le; lia).
  replace ((0xD800 <=? c) && (c <=? 0xDFFF)) with false
    by (symmetry; apply andb_false_iff;
        destruct Hs; [left; apply N.leb_gt | right; apply N.leb_gt]; lia).
  nbool. reflexivity.
Qed.

Lemma decode_4 (b0 b1 b2 b3 : byte) (r : bytes) :
  let c := (Byte.to_N b0 - 0xF0) * 262144 + (Byte.to_N b1 - 0x80) * 4096
           + (Byte.to_N b2 - 0x80) * 64 + (Byte.to_N b3 - 0x80) in
  0xF0 <= Byte.to_N b0 < 0xF8 ->
  is_cont (Byte.to_N b1) = true -> is_cont (Byte.to_N b2) = true ->
  is_cont (Byte.to_N b3) = true ->
  0x10000 <= c < 0x110000 ->
  decode (b0 :: b1 :: b2 :: b3 :: r) = bind (decode r) (fun tl => Ok (c :: tl)).
Proof.
  intros c H H1 H2 H3 Hc. cbn [decode]. rewrite H1, H2, H3. fold c.
  replace (0x10000 <=? c) with true by (symmetry; apply N.leb_le; lia).
  replace (c <? 0x110000) with true by (symmetry; apply N.ltb_lt; lia).
  nbool. reflexivity.
Qed.

Lemma is_cont_byte (x : N) : x < 64 -> is_cont (Byte.to_N (byte_of_N (0x80 + x))) = true.
Proof.
  intros H. rewrite to_N_byte_of_N by lia. unfold is_cont.
  apply andb_true_iff. split; [apply N.leb_le | apply N.ltb_lt]; lia.
Qed.

(** Decoding consumes the encoding of a code point and yields it. *)
Lemma decode_encode_code_point (c : N) (hd tl : bytes) :
  encode_code_point c = Ok hd ->
  decode (hd ++ tl) = bind (decode tl) (fun t => Ok (c :: t)).
Proof.
  unfold encode_code_point.
  destruct (N.ltb_spec c 0x80) as [L1|L1].
  { intros E. apply Ok_inj in E. subst hd. cbn [app].
    rewrite decode_1 by (rewrite to_N_byte_of_N; lia).
    rewrite to_N_byte_of_N by lia. reflexivity. }
  destruct (N.ltb_spec c 0x800) as [L2|L2].
  { intros E. apply Ok_inj in E. subst hd. cbn [app].
    rewrite decode_2.
    - rewrite !to_N_byte_of_N by ndiv.
      replace ((192 + c / 64 - 192) * 64 + (128 + c mod 64 - 128)) with c by ndiv.
      reflexivity.
    - rewrite to_N_byte_of_N by ndiv. ndiv.
    - apply is_cont_byte. ndiv.
    - rewrite !to_N_byte_of_N by ndiv. ndiv. }
  destruct (N.leb_spec 0xD800 c) as [S1|S1];
    [destruct (N.leb_spec c 0xDFFF) as [S2|S2]|]; cbn [andb];
    try discriminate.
  - destruct (N.ltb_spec c 0x10000) as [L3|L3].
    { intros E. apply Ok_inj in E. subst hd. cbn [app].
      rewrite decode_3.
      - rewrite !to_N_byte_of_N by ndiv.
        replace ((224 + c / 4096 - 224) * 4096 + (128 + (c / 64) mod 64 - 128) * 64
                 + (128 + c mod 64 - 128)) with c by ndiv.
        reflexivity.
      - rewrite to_N_byte_of_N by ndiv. ndiv.
      - apply is_cont_byte. ndiv.
      - apply is_cont_byte. ndiv.
      - rewrite !to_N_byte_of_N by ndiv. ndiv.
      - rewrite !to_N_byte_of_N by ndiv. right. ndiv. }
    destruct (N.ltb_spec c 0x110000) as [L4|L4]; [|discriminate].
    intros E. apply Ok_inj in E. subst hd. cbn [app].
    rewrite decode_4.
    + rewrite !to_N_byte_of_N by ndiv.
      replace ((240 + c / 262144 - 240) * 262144
               + (128 + (c / 4096) mod 64 - 128) * 4096
               + (128 + (c / 64) mod 64 - 128) * 64
               + (128 + c mod 64 - 128)) with c by ndiv.
      reflexivity.
    + rewrite to_N_byte_of_N by ndiv. ndiv.
    + apply is_cont_byte. ndiv.
    + apply is_cont_byte. ndiv.
    + apply is_cont_byte. ndiv.
    + rewrite !to_N_byte_of_N by ndiv. ndiv.
  - destruct (N.ltb_spec c 0x10000) as [L3|L3]; [|lia].
    intros E. apply Ok_inj in E. subst hd. cbn [app].
    rewrite decode_3.
    + rewrite !to_N_byte_of_N by ndiv.
      replace ((224 + c / 4096 - 224) * 4096 + (128 + (c / 64) mod 64 - 128) * 64
               + (128 + c mod 64 - 128)) with c by ndiv.
      reflexivity.
    + rewrite to_N_byte_of_N by ndiv. ndiv.
    + apply is_cont_byte. ndiv.
    + apply is_cont_byte. ndiv.
    + rewrite !to_N_byte_of_N by ndiv. ndiv.
    + rewrite !to_N_byte_of_N by ndiv. left. ndiv.
Qed.

Lemma decode_encode (s : str) (bs : bytes) :
  encode s = Ok bs -> decode bs = Ok s.
Proof.
  revert bs. induction s as [|c s IH]; intros bs E.
  - injection E as <-. reflexivity.
  - cbn [encode] in E.
    destruct (encode_code_point c) as [hd|] eqn:Ec; [|discriminate].
    destruct (encode s) as [tl|] eqn:Es; [|discriminate].
    cbn [bind] in E. injection E as <-.
    rewrite (decode_encode_code_point c hd tl Ec), (IH tl eq_refl).
    reflexivity.
Qed.

(** Every string of scalar values can be encoded. *)
Lemma encode_code_point_scalar (c : N) :
  is_scalar c = true -> exists hd, encode_code_point c = Ok hd.
Proof.
  unfold is_scalar, encode_code_point. intros H.
  destruct (N.ltb_spec c 0x80); [eauto|].
  destruct (N.ltb_spec c 0x800); [eauto|].
  destruct (N.ltb_spec c 0xD800) as [A|A].
  - replace (0xD800 <=? c) with false by (symmetry; apply N.leb_gt; lia).
    cbn [andb]. destruct (N.ltb_spec c 0x10000); [eauto|lia].
  - cbn [orb] in H. apply andb_true_iff in H. destruct H as [B C].
    apply N.ltb_lt in B. rewrite C.
    replace (c <=? 0xDFFF) with false by (symmetry; apply N.leb_gt; lia).
    rewrite andb_false_r.
    destruct (c <? 0x10000); eauto.
Qed.

Lemma encode_scalars (s : str) :
  forallb is_scalar s = true -> exists bs, encode s = Ok bs.
Proof.
  induction s as [|c s IH]; intros H; [eexists; reflexivity|].
  cbn [forallb] in H. apply andb_true_iff in H. destruct H as [Hc Hs].
  destruct (encode_code_point_scalar c Hc) as (hd & Eh).
  destruct (IH Hs) as (tl & Et).
  exists (hd ++ tl). cbn [encode]. rewrite Eh, Et. reflexivity.
Qed.

(** On ASCII bytes decoding is the identity on values, and encoding
    gives the bytes back. *)
Lemma decode_ascii (bs : bytes) :
  Forall (fun b => Byte.to_N b < 128) bs -> decode bs = Ok (map Byte.to_N bs).
Proof.
  induction 1 as [|b bs Hb _ IH]; [reflexivity|].
  rewrite decode_1 by exact Hb. rewrite IH. reflexivity.
Qed.

Lemma encode_ascii (bs : bytes) :
  Forall (fun b => Byte.to_N b < 128) bs -> encode (map Byte.to_N bs) = Ok bs.
Proof.
  induction 1 as [|b bs Hb _ IH]; [reflexivity|].
  cbn [map encode]. unfold encode_code_point.
  replace (Byte.to_N b <? 0x80) with true by (symmetry; apply N.ltb_lt; exact Hb).
  rewrite IH. cbn [bind app]. rewrite byte_of_N_to_N. reflexivity.
Qed.

End UTF8Facts.

(** ** SHA-256: the digest has 32 bytes *)

Lemma digest_of_state_length (s : SHA256.state) :
  List.length (SHA256.digest_of_state s) = 32%nat.
Proof.
  destruct s as [[[[[[[a b] c] d] e] f] g] h]. reflexivity.
Qed.

Lemma sha256_digest_length (data : bytes) :
  List.length (hashlib_sha256_digest data) = 32%nat.
Proof. apply digest_of_state_length. Qed.

(** ** The script runs to completion *)

Lemma iv_length (e : entropy) : List.length (iv e) = 16%nat.
Proof. reflexivity. Qed.

Lemma cipher_ok (key v : bytes) :
  List.length key = 32%nat -> List.length v = 16%nat ->
  cipher key v =
    Ok {| algorithm := {| aes_key := key |};
          mode := {| initialization_vector := v |} |}.
Proof.
  intros Hk Hv. unfold cipher, algorithms_AES, len.
  rewrite Hk. change (Z.of_nat 32 * 8) with 256. cbn [Z.eqb Pos.eqb orb bind].
  unfold new_Cipher, key_size, len. cbn [aes_key initialization_vector].
  rewrite Hk, Hv. reflexivity.
Qed.

Lemma b64encode_ascii (l : bytes) :
  Forall (fun b => (Byte.to_N b < 128)%N) (Base64.b64encode l).
Proof.
  eapply Forall_impl; [|apply Base64Facts.b64encode_alphabet].
  intros b. apply Base64Facts.in_alphabet_ascii.
Qed.

Lemma encrypted_base64_ok (comb : bytes) :
  encrypted_base64 comb = Ok (map Byte.to_N (Base64.b64encode comb)).
Proof. apply UTF8Facts.decode_ascii, b64encode_ascii. Qed.

(** Every variable of a run, for constants that can be encoded. *)
Lemma script_run (T P : str) (e : entropy) (sb pt : bytes) :
  str_encode P = Ok sb -> str_encode T = Ok pt ->
  exists (padded : bytes) (ps : list block),
    padded_plaintext pt = Ok padded /\ join_blocks ps = padded /\
    List.length ps = (List.length pt / 16 + 1)%nat /\
    let c := {| algorithm := {| aes_key := hashlib_sha256_digest sb |};
                mode := {| initialization_vector := iv e |} |} in
    let ct := join_blocks (cbc_ciphertext c ps) in
    script T P e =
      Ok {| run_key_bytes := hashlib_sha256_digest sb;
            run_iv := iv e;
            run_cipher := c;
            run_plaintext := pt;
            run_padding_length := padding_length pt;
            run_padded_plaintext := padded;
            run_encrypted := ct;
            run_combined := iv e ++ ct;
            run_encrypted_base64 := map Byte.to_N (Base64.b64encode (iv e ++ ct));
            run_stdout :=
              report (map Byte.to_N (Base64.b64encode (iv e ++ ct))) |}.
Proof.
  intros HP HT.
  destruct (padded_plaintext_eq pt) as (b & _ & Hpad).
  set (padded := pt ++ repeat b (Z.to_nat (padding_length pt))) in *.
  pose proof (padded_plaintext_length pt padded Hpad) as Hlen.
  set (c := {| algorithm := {| aes_key := hashlib_sha256_digest sb |};
               mode := {| initialization_vector := iv e |} |}).
  destruct (encrypted_aligned c _ padded Hlen) as (ps & Hj & Hl & Henc).
  exists padded, ps. repeat split; try assumption.
  cbv zeta. unfold script, key_bytes. rewrite HP. cbn [bind].
  rewrite (cipher_ok _ _ (sha256_digest_length sb) (iv_length e)). cbn [bind].
  rewrite HT. cbn [bind]. rewrite Hpad. cbn [bind].
  fold c. rewrite Henc. cbn [bind]. unfold combined.
  rewrite encrypted_base64_ok. reflexivity.
Qed.

Lemma script_total (T P : str) (e : entropy) :
  forallb is_scalar T = true -> forallb is_scalar P = true ->
  exists sb pt, str_encode P = Ok sb /\ str_encode T = Ok pt.
Proof.
  intros HT HP.
  destruct (UTF8Facts.encode_scalars P HP) as (sb & Hsb).
  destruct (UTF8Facts.encode_scalars T HT) as (pt & Hpt).
  exists sb, pt. split; assumption.
Qed.

(** ** The key schedule of a 32-byte key has fifteen round keys *)

Lemma words_of_bytes_length (n : nat) (l : bytes) :
  List.length l = (4 * n)%nat -> List.length (words_of_bytes l) = n.
Proof.
  revert l. induction n as [|n IH]; intros l H.
  - destruct l; [reflexivity | simpl in H; lia].
  - do 4 (destruct l as [|? l]; [simpl in H; lia|]).
    cbn [words_of_bytes List.length]. rewrite IH; [reflexivity | simpl in H; lia].
Qed.

Lemma blocks_of_words_length (n : nat) (l : list word) :
  List.length l = (4 * n)%nat -> List.length (blocks_of_words l) = n.
Proof.
  revert l. induction n as [|n IH]; intros l H.
  - destruct l; [reflexivity | simpl in H; lia].
  - do 4 (destruct l as [|? l]; [simpl in H; lia|]).
    cbn [blocks_of_words List.length]. rewrite IH; [reflexivity | simpl in H; lia].
Qed.

Lemma expand_from_length (Nk n i : nat) (w : list word) :
  List.length (expand_from Nk n i w) = (List.length w + n)%nat.
Proof.
  revert i w. induction n as [|n IH]; intros i w; cbn [expand_from].
  - lia.
  - rewrite IH, length_app. simpl. lia.
Qed.

Lemma key_expansion_length_256 (key : bytes) :
  List.length key = 32%nat -> List.length (key_expansion key) = 15%nat.
Proof.
  intros H. unfold key_expansion.
  pose proof (words_of_bytes_length 8 key H) as Hw.
  apply blocks_of_words_length.
  rewrite expand_from_length, Hw. reflexivity.
Qed.

(** ** Properties of a run *)

Lemma map_to_N_inj (l l' : bytes) : map Byte.to_N l = map Byte.to_N l' -> l = l'.
Proof.
  intros H. apply (f_equal (map byte_of_N)) in H.
  rewrite !map_map in H.
  rewrite (map_ext _ (fun b => b) byte_of_N_to_N l) in H.
  rewrite (map_ext _ (fun b => b) byte_of_N_to_N l') in H.
  rewrite !map_id in H. exact H.
Qed.

Lemma b64encode_inj (l l' : bytes) :
  Base64.b64encode l = Base64.b64encode l' -> l = l'.
Proof.
  intros H. apply (f_equal Base64.b64decode) in H.
  rewrite !Base64Facts.b64decode_b64encode in H. apply Ok_inj, H.
Qed.

Lemma firstn_app_exact {A : Type} (n : nat) (v ct : list A) :
  List.length v = n -> firstn n (v ++ ct) = v.
Proof.
  intros <-. rewrite firstn_app, Nat.sub_diag, firstn_all.
  cbn [firstn]. apply app_nil_r.
Qed.

Lemma skipn_app_exact {A : Type} (n : nat) (v ct : list A) :
  List.length v = n -> skipn n (v ++ ct) = ct.
Proof.
  intros <-. rewrite skipn_app, Nat.sub_diag, skipn_all. reflexivity.
Qed.

Lemma app_inj_16 (v v' ct ct' : bytes) :
  List.length v = 16%nat -> List.length v' = 16%nat ->
  v ++ ct = v' ++ ct' -> v = v'.
Proof.
  intros Hv Hv' H. apply (f_equal (firstn 16)) in H.
  rewrite !firstn_app_exact in H by assumption. exact H.
Qed.

(** The decryptor undoes a run. *)
Lemma decrypt_run (P : str) (sb pt padded : bytes) (ps : list block) (v : bytes) :
  str_encode P = Ok sb ->
  List.length v = 16%nat ->
  padded_plaintext pt = Ok padded -> join_blocks ps = padded ->
  let c := {| algorithm := {| aes_key := hashlib_sha256_digest sb |};
              mode := {| initialization_vector := v |} |} in
  decrypt (map Byte.to_N (Base64.b64encode (v ++ join_blocks (cbc_ciphertext c ps)))) P
  = bytes_decode pt.
Proof.
  intros HP Hv Hpad Hj c. unfold decrypt, str_encode.
  rewrite UTF8Facts.encode_ascii by apply b64encode_ascii. cbn [bind].
  rewrite Base64Facts.b64decode_b64encode. cbn [bind].
  unfold key_bytes. rewrite HP. cbn [bind].
  rewrite firstn_app_exact, skipn_app_exact by exact Hv.
  rewrite (cipher_ok _ _ (sha256_digest_length sb) Hv). cbn [bind]. fold c.
  rewrite decrypted_cbc_ciphertext. cbn [bind]. rewrite Hj.
  rewrite (unpad_padded_plaintext pt padded Hpad). reflexivity.
Qed.

Ltac open_run T P e HT HP :=
  let sb := fresh "sb" in
  let pt := fresh "pt" in
  let Hsb := fresh "Hsb" in
  let Hpt := fresh "Hpt" in
  let padded := fresh "padded" in
  let ps := fresh "ps" in
  let Hpad := fresh "Hpad" in
  let Hj := fresh "Hj" in
  let Hl := fresh "Hl" in
  let Hrun := fresh "Hrun" in
  destruct (script_total T P e HT HP) as (sb & pt & Hsb & Hpt);
  destruct (script_run T P e sb pt Hsb Hpt)
    as (padded & ps & Hpad & Hj & Hl & Hrun);
  cbv zeta in Hrun.

(** ** The primitives on published vectors *)

(** FIPS-197, appendix C: the example vectors of AES-128, AES-192 and
    AES-256 (key 00 01 02 ..., plaintext 00 11 22 ... ff). *)
Example aes_fips197_vectors :
  let key := map (fun i => byte_of_N (N.of_nat i)) (seq 0 32) in
  let pt := map (fun i => byte_of_N (N.of_nat (17 * i))) (seq 0 16) in
  let enc n :=
    hex (bytes_of_block
           (cipher_block (key_expansion (firstn n key)) (block_of_bytes pt))) in
  enc 16%nat = lit "69c4e0d86a7b0430d8cdb78070b4c55a" /\
  enc 24%nat = lit "dda97ca4864cdfe06eaf70a0ec0d7191" /\
  enc 32%nat = lit "8ea2b7ca516745bfeafc49904b496089".
Proof. vm_compute. repeat split. Qed.

(** FIPS 180-4 example messages, and the key the script derives. *)
Example sha256_vectors :
  hex (hashlib_sha256_digest (list_byte_of_string "abc")) =
    lit "ba7816bf8f01cfea414140de5dae2223b00361a396177a9cb410ff61f20015ad" /\
  hex (hashlib_sha256_digest []) =
    lit "e3b0c44298fc1c149afbf4c8996fb92427ae41e4649b934ca495991b7852b855" /\
  hex (hashlib_sha256_digest
         (list_byte_of_string
            "abcdbcdecdefdefgefghfghighijhijkijkljklmklmnlmnomnopnopq")) =
    lit "248d6a61d20638b8e5c026930c3e6039a33ce45964ff2167f6ecedd419db06c1" /\
  option_map hex (match key_bytes SECRET with Ok k => Some k | Raise _ => None end) =
    Some (lit "e7c0963d78cad96d23739f8896e1cf25ec7379e4b5f4c51a08a3f62328d73997").
Proof. vm_compute. repeat split. Qed.

(** RFC 4648, section 10. *)
Example base64_vectors :
  Base64.b64encode (list_byte_of_string "f") = list_byte_of_string "Zg==" /\
  Base64.b64encode (list_byte_of_string "fo") = list_byte_of_string "Zm8=" /\
  Base64.b64encode (list_byte_of_string "foo") = list_byte_of_string "Zm9v" /\
  Base64.b64encode (list_byte_of_string "foobar") = list_byte_of_string "Zm9vYmFy" /\
  Base64.b64decode (list_byte_of_string "Zm9vYmE=") =
    Ok (list_byte_of_string "fooba").
Proof. vm_compute. repeat split. Qed.

(** The script on its own constants with the IV 00 01 ... 0f: the value
    it prints is the one OpenSSL's aes-256-cbc gives for this key, IV
    and plaintext. *)
Example main_entropy_count :
  exists r, main entropy_count = Ok r /\
    hex (run_iv r) = lit "000102030405060708090a0b0c0d0e0f" /\
    run_padding_length r = 7 /\
    run_encrypted_base64 r =
      lit "AAECAwQFBgcICQoLDA0OD9uSw/UeSCdHrg0Kp7BzsemOVQtQZtor1LUZqVDtBq8vOnE/NLA9b/F9DHylcKzui75h7NNN5LNHceIqbvu95DN+D0q1Jbu1MSS1se/6Ryhf" /\
    decrypt (run_encrypted_base64 r) SECRET = Ok OPENROUTER_KEY.
Proof.
  eexists. split; [vm_compute; reflexivity|]. vm_compute. repeat split.
Qed.

(** The lengths the round trip is asked for: 0, 1, 16, 17 and 255
    bytes. *)
Example round_trip_lengths :
  Forall
    (fun n =>
       let T := repeat 97%N n in
       match script T SECRET entropy_count with
       | Ok r => decrypt (run_encrypted_base64 r) SECRET = Ok T
       | Raise _ => False
       end)
    [0; 1; 16; 17; 255]%nat.
Proof.
  repeat (apply Forall_cons; [vm_compute; reflexivity|]). apply Forall_nil.
Qed.

(** * The claims *)

(** C2 (padding boundary): when the byte length of the plaintext is an
    exact multiple of 16, [padding_length] is 16, not 0, and the padding
    step appends a full block of sixteen bytes, each of value 16. *)
Theorem C2_padding_boundary (plaintext : bytes) :
  len plaintext mod 16 = 0 ->
  padding_length plaintext = 16 /\
  byte_val x10 = 16 /\
  padded_plaintext plaintext = Ok (plaintext ++ repeat x10 16).
Proof.
  intros H.
  assert (Hn : padding_length plaintext = 16)
    by (unfold padding_length; rewrite H; reflexivity).
  split; [exact Hn|]. split; [reflexivity|].
  destruct (padded_plaintext_eq plaintext) as (b & Hb & E).
  rewrite Hn in Hb, E.
  assert (b = x10) as ->.
  { apply to_N_inj. unfold byte_val in Hb. change (Byte.to_N x10) with 16%N. lia. }
  exact E.
Qed.

Lemma C2_padding_boundary_witness :
  len (list_byte_of_string "0123456789abcdef") mod 16 = 0 /\
  padded_plaintext (list_byte_of_string "0123456789abcdef") =
    Ok (list_byte_of_string "0123456789abcdef" ++ repeat x10 16).
Proof.
  split; [reflexivity|].
  apply (C2_padding_boundary (list_byte_of_string "0123456789abcdef")).
  reflexivity.
Defined.

(** C3 (padding step): for every plaintext, padding_length is
    16 - (len(plaintext) % 16) and the padded plaintext is the plaintext
    followed by exactly padding_length bytes, each of value
    padding_length. *)
Theorem C3_padding_step (plaintext : bytes) :
  exists pad : bytes,
    padded_plaintext plaintext = Ok (plaintext ++ pad) /\
    padding_length plaintext = 16 - len plaintext mod 16 /\
    len pad = padding_length plaintext /\
    Forall (fun b => byte_val b = padding_length plaintext) pad.
Proof.
  destruct (padded_plaintext_eq plaintext) as (b & Hb & E).
  pose proof (padding_length_range plaintext) as Hr.
  exists (repeat b (Z.to_nat (padding_length plaintext))).
  split; [exact E|]. split; [reflexivity|]. split.
  - unfold len. rewrite repeat_length. lia.
  - apply Forall_forall. intros x Hx. apply repeat_spec in Hx. subst x. exact Hb.
Qed.

(** C1 (round trip): for every plaintext and passphrase that can be
    encoded, the script succeeds and decrypting the base64 bundle it
    produces with the same passphrase gives back exactly the plaintext,
    whatever IV was drawn. *)
Theorem C1_round_trip (T P : str) (e : entropy) :
  forallb is_scalar T = true -> forallb is_scalar P = true ->
  exists r, script T P e = Ok r /\ decrypt (run_encrypted_base64 r) P = Ok T.
Proof.
  intros HT HP. open_run T P e HT HP.
  eexists. split; [exact Hrun|]. cbn [run_encrypted_base64].
  rewrite (decrypt_run P sb pt padded ps (iv e) Hsb (iv_length e) Hpad Hj).
  apply UTF8Facts.decode_encode, Hpt.
Qed.

Lemma C1_round_trip_witness :
  forallb is_scalar (lit "sk-or-v1-test") = true /\
  forallb is_scalar SECRET = true /\
  exists r, script (lit "sk-or-v1-test") SECRET entropy_count = Ok r /\
            decrypt (run_encrypted_base64 r) SECRET = Ok (lit "sk-or-v1-test").
Proof.
  split; [reflexivity|]. split; [reflexivity|].
  apply (C1_round_trip (lit "sk-or-v1-test") SECRET entropy_count); reflexivity.
Defined.

(** C4 (bundle length): in every run the ciphertext is as long as the
    padded plaintext, the bundle before base64 has 16 bytes more, and
    the padded plaintext's length is a positive multiple of 16. *)
Theorem C4_bundle_length (T P : str) (e : entropy) :
  forallb is_scalar T = true -> forallb is_scalar P = true ->
  exists r, script T P e = Ok r /\
    len (run_encrypted r) = len (run_padded_plaintext r) /\
    len (run_combined r) = 16 + len (run_padded_plaintext r) /\
    0 < len (run_padded_plaintext r) /\
    len (run_padded_plaintext r) mod 16 = 0.
Proof.
  intros HT HP. open_run T P e HT HP.
  eexists. split; [exact Hrun|].
  cbn [run_encrypted run_padded_plaintext run_combined].
  unfold len. rewrite length_app, iv_length, join_blocks_length.
  unfold cbc_ciphertext. rewrite cbc_encrypt_blocks_length.
  rewrite <- Hj, join_blocks_length, Hl.
  repeat split; try lia.
  rewrite Nat2Z.inj_mul, Z.mul_comm. apply Z.mod_mul. lia.
Qed.

Lemma C4_bundle_length_witness :
  forallb is_scalar OPENROUTER_KEY = true /\
  forallb is_scalar SECRET = true /\
  exists r, script OPENROUTER_KEY SECRET entropy_count = Ok r /\
    len (run_encrypted r) = len (run_padded_plaintext r) /\
    len (run_combined r) = 16 + len (run_padded_plaintext r) /\
    0 < len (run_padded_plaintext r) /\
    len (run_padded_plaintext r) mod 16 = 0.
Proof.
  split; [reflexivity|]. split; [reflexivity|].
  apply (C4_bundle_length OPENROUTER_KEY SECRET entropy_count); reflexivity.
Defined.

(** C5 (assembly and encoding): the printed value is the base64 text of
    the bundle; decoded from base64 it is exactly the 16-byte IV
    followed by the ciphertext. *)
Theorem C5_assembly_encoding (T P : str) (e : entropy) :
  forallb is_scalar T = true -> forallb is_scalar P = true ->
  exists r text, script T P e = Ok r /\
    run_combined r = run_iv r ++ run_encrypted r /\
    len (run_iv r) = 16 /\
    str_encode (run_encrypted_base64 r) = Ok text /\
    text = Base64.b64encode (run_combined r) /\
    Base64.b64decode text = Ok (run_iv r ++ run_encrypted r).
Proof.
  intros HT HP. open_run T P e HT HP.
  eexists. eexists. split; [exact Hrun|].
  cbn [run_combined run_iv run_encrypted run_encrypted_base64].
  split; [reflexivity|]. split; [reflexivity|]. split.
  - apply UTF8Facts.encode_ascii, b64encode_ascii.
  - split; [reflexivity|]. apply Base64Facts.b64decode_b64encode.
Qed.

Lemma C5_assembly_encoding_witness :
  forallb is_scalar OPENROUTER_KEY = true /\
  forallb is_scalar SECRET = true /\
  exists r text, script OPENROUTER_KEY SECRET entropy_count = Ok r /\
    run_combined r = run_iv r ++ run_encrypted r /\
    len (run_iv r) = 16 /\
    str_encode (run_encrypted_base64 r) = Ok text /\
    text = Base64.b64encode (run_combined r) /\
    Base64.b64decode text = Ok (run_iv r ++ run_encrypted r).
Proof.
  split; [reflexivity|]. split; [reflexivity|].
  apply (C5_assembly_encoding OPENROUTER_KEY SECRET entropy_count); reflexivity.
Defined.

(** C6 (cipher key width), as the code has it: the padded plaintext is
    encrypted with AES in CBC mode under a 256-bit key (the block, not
    the key, is 128 bits wide): the key is the 32-byte SHA-256 digest of
    the UTF-8 passphrase, expanded into fifteen round keys, and the
    chaining starts from the 16-byte IV that was drawn. *)
Theorem C6_cipher_key_width (T P : str) (e : entropy) :
  forallb is_scalar T = true -> forallb is_scalar P = true ->
  exists r secret_bytes ps,
    script T P e = Ok r /\
    str_encode P = Ok secret_bytes /\
    run_key_bytes r = hashlib_sha256_digest secret_bytes /\
    len (run_key_bytes r) = 32 /\
    aes_key (algorithm (run_cipher r)) = run_key_bytes r /\
    key_size (algorithm (run_cipher r)) = 256 /\
    block_size = 128 /\
    List.length (key_expansion (run_key_bytes r)) = 15%nat /\
    initialization_vector (mode (run_cipher r)) = run_iv r /\
    run_iv r = os_urandom 16 e /\
    join_blocks ps = run_padded_plaintext r /\
    run_encrypted r =
      join_blocks
        (fst (cbc_encrypt_blocks (key_expansion (run_key_bytes r))
                (block_of_bytes (run_iv r)) ps)).
Proof.
  intros HT HP. open_run T P e HT HP.
  eexists. exists sb, ps. split; [exact Hrun|].
  cbn [run_key_bytes run_cipher run_iv run_padded_plaintext run_encrypted
       algorithm mode aes_key initialization_vector].
  pose proof (sha256_digest_length sb) as H32.
  repeat split; try assumption; try reflexivity.
  - unfold len. rewrite H32. reflexivity.
  - unfold key_size, len. cbn [aes_key]. rewrite H32. reflexivity.
  - apply key_expansion_length_256, H32.
Qed.

Lemma C6_cipher_key_width_witness :
  forallb is_scalar OPENROUTER_KEY = true /\
  forallb is_scalar SECRET = true /\
  exists r secret_bytes ps,
    script OPENROUTER_KEY SECRET entropy_count = Ok r /\
    str_encode SECRET = Ok secret_bytes /\
    run_key_bytes r = hashlib_sha256_digest secret_bytes /\
    len (run_key_bytes r) = 32 /\
    aes_key (algorithm (run_cipher r)) = run_key_bytes r /\
    key_size (algorithm (run_cipher r)) = 256 /\
    block_size = 128 /\
    List.length (key_expansion (run_key_bytes r)) = 15%nat /\
    initialization_vector (mode (run_cipher r)) = run_iv r /\
    run_iv r = os_urandom 16 entropy_count /\
    join_blocks ps = run_padded_plaintext r /\
    run_encrypted r =
      join_blocks
        (fst (cbc_encrypt_blocks (key_expansion (run_key_bytes r))
                (block_of_bytes (run_iv r)) ps)).
Proof.
  split; [reflexivity|]. split; [reflexivity|].
  apply (C6_cipher_key_width OPENROUTER_KEY SECRET entropy_count); reflexivity.
Defined.

(** C6 as stated fails: in the run of the script on its own constants
    the cipher's key has 256 bits, not 128. *)
Lemma C6_counterexample :
  exists r, main (entropy_const x00) = Ok r /\
            key_size (algorithm (run_cipher r)) = 256 /\
            key_size (algorithm (run_cipher r)) <> 128.
Proof.
  eexists. split; [vm_compute; reflexivity|].
  split; [reflexivity | discriminate].
Qed.

(** What [report] prints, as lines. *)
Lemma report_lines (b64 : str) :
  report b64 =
  unlines
    [ lit "============================================================";
      lit "ENCRYPTED OPENROUTER API KEY";
      lit "============================================================";
      [];
      lit "Run this SQL in Neon Console:";
      [];
      lit "INSERT INTO api_keys (service_name, encrypted_value, description, updated_at)";
      lit "VALUES ('openrouter', '" ++ b64
        ++ lit "', 'OpenRouter API Key', CURRENT_TIMESTAMP)";
      lit "ON CONFLICT (service_name)";
      lit "DO UPDATE SET encrypted_value = EXCLUDED.encrypted_value, updated_at = CURRENT_TIMESTAMP;";
      [];
      lit "============================================================";
      lit "Verify with:";
      lit "SELECT service_name, description, updated_at FROM api_keys;";
      lit "============================================================" ].
Proof.
  unfold report, print, unlines. cbn [map List.concat].
  change (str_repeat (lit "=") 60)
    with (lit "============================================================").
  rewrite <- !app_assoc. cbn [app]. reflexivity.
Qed.

(** C7 (determinism of key derivation): the key is a function of the
    passphrase alone: it has 32 bytes, and two runs with the same
    passphrase use the same key, whatever their plaintexts and IVs. *)
Theorem C7_key_determinism (P T1 T2 : str) (e1 e2 : entropy) :
  forallb is_scalar P = true ->
  forallb is_scalar T1 = true -> forallb is_scalar T2 = true ->
  exists k r1 r2,
    key_bytes P = Ok k /\ len k = 32 /\
    script T1 P e1 = Ok r1 /\ script T2 P e2 = Ok r2 /\
    run_key_bytes r1 = k /\ run_key_bytes r2 = k /\
    aes_key (algorithm (run_cipher r1)) = aes_key (algorithm (run_cipher r2)).
Proof.
  intros HP H1 H2.
  destruct (script_total T1 P e1 H1 HP) as (sb & pt1 & Hsb & Hpt1).
  destruct (script_total T2 P e2 H2 HP) as (sb' & pt2 & Hsb' & Hpt2).
  rewrite Hsb in Hsb'. apply Ok_inj in Hsb'. subst sb'.
  destruct (script_run T1 P e1 sb pt1 Hsb Hpt1) as (? & ? & _ & _ & _ & Hr1).
  destruct (script_run T2 P e2 sb pt2 Hsb Hpt2) as (? & ? & _ & _ & _ & Hr2).
  cbv zeta in Hr1, Hr2.
  exists (hashlib_sha256_digest sb). eexists. eexists.
  split; [unfold key_bytes; rewrite Hsb; reflexivity|].
  split; [unfold len; rewrite sha256_digest_length; reflexivity|].
  split; [exact Hr1|]. split; [exact Hr2|].
  repeat split.
Qed.

Lemma C7_key_determinism_witness :
  forallb is_scalar SECRET = true /\
  forallb is_scalar OPENROUTER_KEY = true /\
  forallb is_scalar (lit "sk-or-v1-test") = true /\
  exists k r1 r2,
    key_bytes SECRET = Ok k /\ len k = 32 /\
    script OPENROUTER_KEY SECRET (entropy_const x00) = Ok r1 /\
    script (lit "sk-or-v1-test") SECRET entropy_count = Ok r2 /\
    run_key_bytes r1 = k /\ run_key_bytes r2 = k /\
    aes_key (algorithm (run_cipher r1)) = aes_key (algorithm (run_cipher r2)).
Proof.
  split; [reflexivity|]. split; [reflexivity|]. split; [reflexivity|].
  apply (C7_key_determinism SECRET OPENROUTER_KEY (lit "sk-or-v1-test")
           (entropy_const x00) entropy_count); reflexivity.
Defined.

(** C8 (non-determinism through the IV): two runs on the same plaintext
    and passphrase whose IVs differ produce different bundles, and
    different base64 texts. *)
Theorem C8_iv_nondeterminism (T P : str) (e1 e2 : entropy) :
  forallb is_scalar T = true -> forallb is_scalar P = true ->
  iv e1 <> iv e2 ->
  exists r1 r2,
    script T P e1 = Ok r1 /\ script T P e2 = Ok r2 /\
    run_iv r1 = iv e1 /\ run_iv r2 = iv e2 /\
    run_combined r1 <> run_combined r2 /\
    run_encrypted_base64 r1 <> run_encrypted_base64 r2.
Proof.
  intros HT HP Hiv.
  destruct (script_total T P e1 HT HP) as (sb & pt & Hsb & Hpt).
  destruct (script_run T P e1 sb pt Hsb Hpt) as (? & ? & _ & _ & _ & Hr1).
  destruct (script_run T P e2 sb pt Hsb Hpt) as (? & ? & _ & _ & _ & Hr2).
  cbv zeta in Hr1, Hr2.
  eexists. eexists. split; [exact Hr1|]. split; [exact Hr2|].
  cbn [run_iv run_combined run_encrypted_base64].
  split; [reflexivity|]. split; [reflexivity|]. split.
  - intros E. apply Hiv.
    exact (app_inj_16 _ _ _ _ (iv_length e1) (iv_length e2) E).
  - intros E. apply Hiv.
    apply map_to_N_inj, b64encode_inj in E.
    exact (app_inj_16 _ _ _ _ (iv_length e1) (iv_length e2) E).
Qed.

Lemma C8_iv_nondeterminism_witness :
  forallb is_scalar OPENROUTER_KEY = true /\
  forallb is_scalar SECRET = true /\
  iv (entropy_const x00) <> iv entropy_count /\
  exists r1 r2,
    script OPENROUTER_KEY SECRET (entropy_const x00) = Ok r1 /\
    script OPENROUTER_KEY SECRET entropy_count = Ok r2 /\
    run_iv r1 = iv (entropy_const x00) /\ run_iv r2 = iv entropy_count /\
    run_combined r1 <> run_combined r2 /\
    run_encrypted_base64 r1 <> run_encrypted_base64 r2.
Proof.
  split; [reflexivity|]. split; [reflexivity|].
  assert (H : iv (entropy_const x00) <> iv entropy_count)
    by (vm_compute; discriminate).
  split; [exact H|].
  apply (C8_iv_nondeterminism OPENROUTER_KEY SECRET (entropy_const x00)
           entropy_count); [reflexivity | reflexivity | exact H].
Defined.

(** C9 (output contents): a successful run prints the banner, the
    INSERT ... ON CONFLICT ... DO UPDATE statement on
    api_keys (service_name, encrypted_value, description, updated_at)
    with the base64 text of the bundle as the encrypted_value literal,
    and the verification SELECT, in these fifteen lines. *)
Theorem C9_output_contents (T P : str) (e : entropy) :
  forallb is_scalar T = true -> forallb is_scalar P = true ->
  exists r, script T P e = Ok r /\
    run_encrypted_base64 r = map Byte.to_N (Base64.b64encode (run_combined r)) /\
    run_stdout r =
      unlines
        [ lit "============================================================";
          lit "ENCRYPTED OPENROUTER API KEY";
          lit "============================================================";
          [];
          lit "Run this SQL in Neon Console:";
          [];
          lit "INSERT INTO api_keys (service_name, encrypted_value, description, updated_at)";
          lit "VALUES ('openrouter', '" ++ run_encrypted_base64 r
            ++ lit "', 'OpenRouter API Key', CURRENT_TIMESTAMP)";
          lit "ON CONFLICT (service_name)";
          lit "DO UPDATE SET encrypted_value = EXCLUDED.encrypted_value, updated_at = CURRENT_TIMESTAMP;";
          [];
          lit "============================================================";
          lit "Verify with:";
          lit "SELECT service_name, description, updated_at FROM api_keys;";
          lit "============================================================" ].
Proof.
  intros HT HP. open_run T P e HT HP.
  eexists. split; [exact Hrun|].
  cbn [run_encrypted_base64 run_combined run_stdout].
  split; [reflexivity|]. apply report_lines.
Qed.

Lemma C9_output_contents_witness :
  forallb is_scalar OPENROUTER_KEY = true /\
  forallb is_scalar SECRET = true /\
  exists r, script OPENROUTER_KEY SECRET entropy_count = Ok r /\
    run_encrypted_base64 r = map Byte.to_N (Base64.b64encode (run_combined r)) /\
    run_stdout r =
      unlines
        [ lit "============================================================";
          lit "ENCRYPTED OPENROUTER API KEY";
          lit "============================================================";
          [];
          lit "Run this SQL in Neon Console:";
          [];
          lit "INSERT INTO api_keys (service_name, encrypted_value, description, updated_at)";
          lit "VALUES ('openrouter', '" ++ run_encrypted_base64 r
            ++ lit "', 'OpenRouter API Key', CURRENT_TIMESTAMP)";
          lit "ON CONFLICT (service_name)";
          lit "DO UPDATE SET encrypted_value = EXCLUDED.encrypted_value, updated_at = CURRENT_TIMESTAMP;";
          [];
          lit "============================================================";
          lit "Verify with:";
          lit "SELECT service_name, description, updated_at FROM api_keys;";
          lit "============================================================" ].
Proof.
  split; [reflexivity|]. split; [reflexivity|].
  apply (C9_output_contents OPENROUTER_KEY SECRET entropy_count); reflexivity.
Defined.

(** C10 (the SQL literal is well formed): the value put between single
    quotes in the INSERT statement is made of base64 characters only
    (A-Z, a-z, 0-9, +, /, =), hence holds no single quote, whatever IV
    was drawn. *)
Theorem C10_sql_literal (T P : str) (e : entropy) :
  forallb is_scalar T = true -> forallb is_scalar P = true ->
  exists r, script T P e = Ok r /\
    Forall (fun c => Base64.in_alphabet c = true) (run_encrypted_base64 r) /\
    ~ In 39%N (run_encrypted_base64 r) /\
    exists before after,
      run_stdout r =
        before ++ lit "VALUES ('openrouter', '" ++ run_encrypted_base64 r
          ++ lit "', 'OpenRouter API Key', CURRENT_TIMESTAMP)" ++ after.
Proof.
  intros HT HP. open_run T P e HT HP.
  eexists. split; [exact Hrun|].
  cbn [run_encrypted_base64 run_stdout].
  assert (HA : Forall (fun c => Base64.in_alphabet c = true)
                 (map Byte.to_N (Base64.b64encode
                    (iv e ++ join_blocks
                       (cbc_ciphertext
                          {| algorithm := {| aes_key := hashlib_sha256_digest sb |};
                             mode := {| initialization_vector := iv e |} |} ps))))).
  { apply Forall_map, Base64Facts.b64encode_alphabet. }
  split; [exact HA|]. split.
  - intros Hin. rewrite Forall_forall in HA. specialize (HA _ Hin). discriminate HA.
  - exists (unlines
              [ lit "============================================================";
                lit "ENCRYPTED OPENROUTER API KEY";
                lit "============================================================";
                [];
                lit "Run this SQL in Neon Console:";
                [];
                lit "INSERT INTO api_keys (service_name, encrypted_value, description, updated_at)" ]).
    exists (10%N ::
            unlines
              [ lit "ON CONFLICT (service_name)";
                lit "DO UPDATE SET encrypted_value = EXCLUDED.encrypted_value, updated_at = CURRENT_TIMESTAMP;";
                [];
                lit "============================================================";
                lit "Verify with:";
                lit "SELECT service_name, description, updated_at FROM api_keys;";
                lit "============================================================" ]).
    rewrite report_lines. unfold unlines. cbn [map List.concat].
    rewrite <- !app_assoc. reflexivity.
Qed.

Lemma C10_sql_literal_witness :
  forallb is_scalar OPENROUTER_KEY = true /\
  forallb is_scalar SECRET = true /\
  exists r, script OPENROUTER_KEY SECRET entropy_count = Ok r /\
    Forall (fun c => Base64.in_alphabet c = true) (run_encrypted_base64 r) /\
    ~ In 39%N (run_encrypted_base64 r) /\
    exists before after,
      run_stdout r =
        before ++ lit "VALUES ('openrouter', '" ++ run_encrypted_base64 r
          ++ lit "', 'OpenRouter API Key', CURRENT_TIMESTAMP)" ++ after.
Proof.
  split; [reflexivity|]. split; [reflexivity|].
  apply (C10_sql_literal OPENROUTER_KEY SECRET entropy_count); reflexivity.
Defined.

(** * Further properties of the script *)

(** ** When the script fails *)

Lemma encode_code_point_not_scalar (c : N) :
  is_scalar c = false -> UTF8.encode_code_point c = Raise UnicodeEncodeError.
Proof.
  unfold is_scalar, UTF8.encode_code_point.
  destruct (N.ltb_spec c 0xD800) as [A|A]; [discriminate|].
  cbn [orb].
  replace (c <? 0x80)%N with false by (symmetry; apply N.ltb_ge; lia).
  replace (c <? 0x800)%N with false by (symmetry; apply N.ltb_ge; lia).
  replace (0xD800 <=? c)%N with true by (symmetry; apply N.leb_le; lia).
  cbn [andb].
  destruct (N.leb_spec c 0xDFFF) as [B|B]; [reflexivity|].
  replace (0xDFFF <? c)%N with true by (symmetry; apply N.ltb_lt; lia).
  cbn [andb]. intros H. rewrite H. apply N.ltb_ge in H.
  replace (c <? 0x10000)%N with false by (symmetry; apply N.ltb_ge; lia).
  reflexivity.
Qed.

Lemma encode_not_scalar (s : str) :
  forallb is_scalar s = false -> str_encode s = Raise UnicodeEncodeError.
Proof.
  unfold str_encode. induction s as [|c s IH]; [discriminate|].
  cbn [forallb UTF8.encode]. destruct (is_scalar c) eqn:Ec.
  - cbn [andb]. intros Hs.
    destruct (UTF8Facts.encode_code_point_scalar c Ec) as (hd & ->).
    cbn [bind]. rewrite (IH Hs). reflexivity.
  - intros _. rewrite (encode_code_point_not_scalar c Ec). reflexivity.
Qed.

(** X1: the only way a run can fail is the encoding of one of the two
    constants: it ends in UnicodeEncodeError exactly when the
    passphrase or the plaintext holds a code point that UTF-8 cannot
    encode, and succeeds otherwise.  The ValueErrors of [bytes(...)],
    of the cipher's key and IV checks and of [finalize] never occur. *)
Theorem X1_script_failure (T P : str) (e : entropy) :
  (forallb is_scalar P && forallb is_scalar T = true /\
   exists r, script T P e = Ok r) \/
  (forallb is_scalar P && forallb is_scalar T = false /\
   script T P e = Raise UnicodeEncodeError).
Proof.
  destruct (forallb is_scalar P) eqn:HP.
  - destruct (forallb is_scalar T) eqn:HT.
    + left. split; [reflexivity|]. open_run T P e HT HP. eauto.
    + right. split; [reflexivity|].
      destruct (UTF8Facts.encode_scalars P HP) as (sb & Hsb).
      change (str_encode P = Ok sb) in Hsb.
      unfold script, key_bytes. rewrite Hsb. cbn [bind].
      rewrite (cipher_ok _ _ (sha256_digest_length sb) (iv_length e)).
      cbn [bind]. rewrite (encode_not_scalar T HT). reflexivity.
  - right. split; [reflexivity|].
    unfold script, key_bytes. rewrite (encode_not_scalar P HP). reflexivity.
Qed.

(** ** Padding *)

(** X2: padding is unambiguous: two plaintexts with the same padded
    form are the same plaintext. *)
Theorem X2_padding_injective (pt1 pt2 padded : bytes) :
  padded_plaintext pt1 = Ok padded -> padded_plaintext pt2 = Ok padded ->
  pt1 = pt2.
Proof.
  intros H1 H2.
  apply unpad_padded_plaintext in H1. apply unpad_padded_plaintext in H2.
  rewrite H1 in H2. apply Ok_inj, H2.
Qed.

Lemma X2_padding_injective_witness :
  padded_plaintext (list_byte_of_string "sk-or") =
    Ok (list_byte_of_string "sk-or" ++ repeat x0b 11) /\
  list_byte_of_string "sk-or" = list_byte_of_string "sk-or".
Proof.
  assert (H : padded_plaintext (list_byte_of_string "sk-or") =
              Ok (list_byte_of_string "sk-or" ++ repeat x0b 11))
    by reflexivity.
  split; [exact H|].
  exact (X2_padding_injective _ _ _ H H).
Defined.

(** ** UTF-8 *)

Lemma encode_code_point_length (c : N) (hd : bytes) :
  UTF8.encode_code_point c = Ok hd ->
  (1 <= List.length hd <= 4)%nat.
Proof.
  unfold UTF8.encode_code_point.
  repeat match goal with
         | |- context [if ?b then _ else _] => destruct b
         end;
    intros E; try discriminate; apply Ok_inj in E; subst hd;
    cbn [List.length]; lia.
Qed.

(** X12: what [str.encode()] produces, [bytes.decode()] reads back as
    the same string; a string of n code points takes between n and 4 n
    bytes. *)
Theorem X12_utf8_round_trip (s : str) (bs : bytes) :
  str_encode s = Ok bs ->
  bytes_decode bs = Ok s /\
  (List.length s <= List.length bs <= 4 * List.length s)%nat.
Proof.
  intros H. split; [apply UTF8Facts.decode_encode, H|].
  unfold str_encode in H. revert bs H.
  induction s as [|c s IH]; intros bs H.
  - apply Ok_inj in H. subst bs. simpl. lia.
  - cbn [UTF8.encode] in H.
    destruct (UTF8.encode_code_point c) as [hd|] eqn:Ec; [|discriminate].
    destruct (UTF8.encode s) as [tl|] eqn:Es; [|discriminate].
    cbn [bind] in H. apply Ok_inj in H. subst bs.
    pose proof (encode_code_point_length c hd Ec).
    specialize (IH tl eq_refl).
    rewrite length_app. cbn [List.length]. lia.
Qed.

Lemma X12_utf8_round_trip_witness :
  str_encode [36; 163; 8364; 66376]%N =
    Ok [x24; xc2; xa3; xe2; x82; xac; xf0; x90; x8d; x88] /\
  bytes_decode [x24; xc2; xa3; xe2; x82; xac; xf0; x90; x8d; x88] =
    Ok [36; 163; 8364; 66376]%N /\
  (4 <= 10 <= 4 * 4)%nat.
Proof.
  assert (H : str_encode [36; 163; 8364; 66376]%N =
              Ok [x24; xc2; xa3; xe2; x82; xac; xf0; x90; x8d; x88])
    by reflexivity.
  split; [exact H|].
  exact (X12_utf8_round_trip _ _ H).
Defined.

(** ** The encryption step and the cipher object *)

Lemma split_blocks_unaligned (l : bytes) :
  (List.length l mod 16 <> 0)%nat ->
  exists bs x r, split_blocks l = (bs, x :: r).
Proof.
  intros H.
  pose proof (Nat.div_mod_eq (List.length l) 16) as D.
  pose proof (Nat.mod_upper_bound (List.length l) 16 ltac:(lia)) as U.
  set (q := (List.length l / 16)%nat) in *.
  destruct (split_blocks_aligned q (firstn (16 * q) l)) as (bs & _ & Hj & _).
  { rewrite length_firstn. lia. }
  assert (Hr : (List.length (skipn (16 * q) l) < 16)%nat)
    by (rewrite length_skipn; lia).
  pose proof (split_blocks_join bs (skipn (16 * q) l) Hr) as S.
  rewrite Hj, firstn_skipn in S.
  destruct (skipn (16 * q) l) as [|x r] eqn:E.
  - apply (f_equal (@List.length byte)) in E. rewrite length_skipn in E.
    simpl in E. lia.
  - exists bs, x, r. exact S.
Qed.

(** X4: line 38 on its own: the encryptor returns a ciphertext, as long
    as the data, when the data is a whole number of 16-byte blocks, and
    [finalize] raises ValueError otherwise; this is why the plaintext
    is padded first. *)
Theorem X4_encrypted_alignment (c : Cipher) (data : bytes) :
  ((List.length data mod 16 = 0)%nat /\
   exists ct, encrypted c data = Ok ct /\ List.length ct = List.length data) \/
  ((List.length data mod 16 <> 0)%nat /\ encrypted c data = Raise ValueError).
Proof.
  destruct (Nat.eq_dec (List.length data mod 16) 0) as [H|H].
  - left. split; [exact H|].
    assert (Hn : List.length data = (16 * (List.length data / 16))%nat)
      by (apply Nat.Div0.div_exact; exact H).
    destruct (encrypted_aligned c _ data Hn) as (ps & Hj & Hl & He).
    eexists. split; [exact He|].
    rewrite join_blocks_length. unfold cbc_ciphertext.
    rewrite cbc_encrypt_blocks_length, Hl. lia.
  - right. split; [exact H|].
    destruct (split_blocks_unaligned data H) as (bs & x & r & S).
    unfold encrypted, update, encryptor. cbn [buffer app round_keys chain].
    rewrite S.
    destruct (cbc_encrypt_blocks _ _ bs) as [cs last]. reflexivity.
Qed.

(** X5: lines 24-28 on their own: the cipher object is built exactly
    for a key of 16, 24 or 32 bytes and an IV of 16 bytes; any other
    key or IV length raises ValueError. *)
Theorem X5_cipher_validity (key v : bytes) :
  ((List.length key = 16 \/ List.length key = 24 \/ List.length key = 32)%nat /\
   List.length v = 16%nat /\
   cipher key v = Ok {| algorithm := {| aes_key := key |};
                        mode := {| initialization_vector := v |} |}) \/
  (~ ((List.length key = 16 \/ List.length key = 24 \/ List.length key = 32)%nat /\
      List.length v = 16%nat) /\
   cipher key v = Raise ValueError).
Proof.
  unfold cipher, algorithms_AES, new_Cipher, key_size, len.
  destruct (Z.eqb_spec (Z.of_nat (List.length key) * 8) 128) as [K1|K1];
    [|destruct (Z.eqb_spec (Z.of_nat (List.length key) * 8) 192) as [K2|K2];
      [|destruct (Z.eqb_spec (Z.of_nat (List.length key) * 8) 256) as [K3|K3];
        [|destruct (Z.eqb_spec (Z.of_nat (List.length key) * 8) 512) as [K4|K4]]]];
    cbn [orb bind aes_key initialization_vector].
  5: { right. split; [|reflexivity]. intros [[?|[?|?]] _]; lia. }
  4: { right. split; [intros [[?|[?|?]] _]; lia|].
       rewrite K4. reflexivity. }
  all: match goal with
       | K : _ = ?n |- _ => rewrite K; change (n >? 256) with false; cbv iota
       end;
    destruct (Z.eqb_spec (Z.of_nat (List.length v) * 8) block_size) as [V|V];
    unfold block_size in V;
    [ left; split; [lia|]; split; [lia | reflexivity]
    | right; split; [intros [_ ?]; lia | reflexivity] ].
Qed.

(** ** The base64 text *)

Lemma b64encode_length_upto (n : nat) (l : bytes) :
  (List.length l <= n)%nat ->
  List.length (Base64.b64encode l) = (4 * ((List.length l + 2) / 3))%nat.
Proof.
  revert l. induction n as [|n IH]; intros l H.
  - destruct l; [reflexivity | simpl in H; lia].
  - destruct l as [|a [|b [|c rest]]]; try reflexivity.
    rewrite Base64Facts.b64encode_cons3. unfold Base64.encode3.
    cbn [app List.length]. rewrite IH by (simpl in H; lia).
    replace (S (S (S (List.length rest))) + 2)%nat
      with ((List.length rest + 2) + 1 * 3)%nat by lia.
    rewrite Nat.div_add by lia. lia.
Qed.

Lemma b64encode_length (l : bytes) :
  List.length (Base64.b64encode l) = (4 * ((List.length l + 2) / 3))%nat.
Proof. apply (b64encode_length_upto (List.length l)). lia. Qed.

(** X9: line 44 on its own: for every bundle the base64 bytes decode to
    a string, never an error; the string has four characters for every
    three bytes of the bundle, rounded up, all of the base64 alphabet,
    and encodes back to the same base64 bytes. *)
Theorem X9_encrypted_base64_text (comb : bytes) :
  exists s, encrypted_base64 comb = Ok s /\
    List.length s = (4 * ((List.length comb + 2) / 3))%nat /\
    Forall (fun c => Base64.in_alphabet c = true) s /\
    str_encode s = Ok (Base64.b64encode comb).
Proof.
  exists (map Byte.to_N (Base64.b64encode comb)).
  split; [apply encrypted_base64_ok|]. split.
  - rewrite length_map. apply b64encode_length.
  - split.
    + apply Forall_map, Base64Facts.b64encode_alphabet.
    + apply UTF8Facts.encode_ascii, b64encode_ascii.
Qed.

(** X6: the sizes of a run, from the byte length of the plaintext: with
    q = len(plaintext) // 16, the padded plaintext and the ciphertext
    have 16 (q + 1) bytes, the bundle 16 (q + 2), and the printed value
    4 * ceil(16 (q + 2) / 3) characters. *)
Theorem X6_run_sizes (T P : str) (e : entropy) :
  forallb is_scalar T = true -> forallb is_scalar P = true ->
  exists r, script T P e = Ok r /\
    let q := (List.length (run_plaintext r) / 16)%nat in
    str_encode T = Ok (run_plaintext r) /\
    List.length (run_padded_plaintext r) = (16 * (q + 1))%nat /\
    List.length (run_encrypted r) = (16 * (q + 1))%nat /\
    List.length (run_combined r) = (16 * (q + 2))%nat /\
    List.length (run_encrypted_base64 r) = (4 * ((16 * (q + 2) + 2) / 3))%nat.
Proof.
  intros HT HP. open_run T P e HT HP.
  eexists. split; [exact Hrun|].
  cbn [run_plaintext run_padded_plaintext run_encrypted run_combined
       run_encrypted_base64].
  assert (Hc : List.length
                 (join_blocks
                    (cbc_ciphertext
                       {| algorithm := {| aes_key := hashlib_sha256_digest sb |};
                          mode := {| initialization_vector := iv e |} |} ps))
               = (16 * (List.length pt / 16 + 1))%nat).
  { rewrite join_blocks_length. unfold cbc_ciphertext.
    rewrite cbc_encrypt_blocks_length, Hl. reflexivity. }
  split; [exact Hpt|]. split.
  - rewrite <- Hj, join_blocks_length, Hl. reflexivity.
  - split; [exact Hc|]. split.
    + rewrite length_app, iv_length, Hc. lia.
    + rewrite length_map, b64encode_length, length_app, iv_length, Hc.
      f_equal. f_equal. lia.
Qed.

Lemma X6_run_sizes_witness :
  forallb is_scalar [] = true /\ forallb is_scalar SECRET = true /\
  exists r, script [] SECRET entropy_count = Ok r /\
    let q := (List.length (run_plaintext r) / 16)%nat in
    str_encode [] = Ok (run_plaintext r) /\
    List.length (run_padded_plaintext r) = (16 * (q + 1))%nat /\
    List.length (run_encrypted r) = (16 * (q + 1))%nat /\
    List.length (run_combined r) = (16 * (q + 2))%nat /\
    List.length (run_encrypted_base64 r) = (4 * ((16 * (q + 2) + 2) / 3))%nat.
Proof.
  split; [reflexivity|]. split; [reflexivity|].
  apply (X6_run_sizes [] SECRET entropy_count); reflexivity.
Defined.

(** ** What the printed value determines *)

(** X7: the printed value determines the plaintext and the IV: two runs
    under the same passphrase that print the same value encrypted the
    same plaintext with the same IV; no two secrets share a value. *)
Theorem X7_value_determines_plaintext (T1 T2 P : str) (e1 e2 : entropy) :
  forallb is_scalar T1 = true -> forallb is_scalar T2 = true ->
  forallb is_scalar P = true ->
  exists r1 r2,
    script T1 P e1 = Ok r1 /\ script T2 P e2 = Ok r2 /\
    (run_encrypted_base64 r1 = run_encrypted_base64 r2 ->
     T1 = T2 /\ run_iv r1 = run_iv r2).
Proof.
  intros H1 H2 HP.
  destruct (script_total T1 P e1 H1 HP) as (sb & pt1 & Hsb & Hpt1).
  destruct (script_total T2 P e2 H2 HP) as (sb' & pt2 & Hsb' & Hpt2).
  rewrite Hsb in Hsb'. apply Ok_inj in Hsb'. subst sb'.
  destruct (script_run T1 P e1 sb pt1 Hsb Hpt1)
    as (padded1 & ps1 & Hpad1 & Hj1 & _ & Hr1).
  destruct (script_run T2 P e2 sb pt2 Hsb Hpt2)
    as (padded2 & ps2 & Hpad2 & Hj2 & _ & Hr2).
  cbv zeta in Hr1, Hr2.
  eexists. eexists. split; [exact Hr1|]. split; [exact Hr2|].
  cbn [run_encrypted_base64 run_iv]. intros E. split.
  - pose proof (decrypt_run P sb pt1 padded1 ps1 (iv e1) Hsb (iv_length e1)
                  Hpad1 Hj1) as D1.
    pose proof (decrypt_run P sb pt2 padded2 ps2 (iv e2) Hsb (iv_length e2)
                  Hpad2 Hj2) as D2.
    cbv zeta in D1, D2. rewrite E in D1. rewrite D1 in D2.
    unfold bytes_decode in D2.
    rewrite (UTF8Facts.decode_encode T1 pt1 Hpt1) in D2.
    rewrite (UTF8Facts.decode_encode T2 pt2 Hpt2) in D2.
    apply Ok_inj, D2.
  - apply map_to_N_inj, b64encode_inj in E.
    exact (app_inj_16 _ _ _ _ (iv_length e1) (iv_length e2) E).
Qed.

Lemma X7_value_determines_plaintext_witness :
  forallb is_scalar (lit "sk-or-v1-test") = true /\
  forallb is_scalar OPENROUTER_KEY = true /\
  forallb is_scalar SECRET = true /\
  exists r1 r2,
    script (lit "sk-or-v1-test") SECRET entropy_count = Ok r1 /\
    script OPENROUTER_KEY SECRET entropy_count = Ok r2 /\
    (run_encrypted_base64 r1 = run_encrypted_base64 r2 ->
     lit "sk-or-v1-test" = OPENROUTER_KEY /\ run_iv r1 = run_iv r2).
Proof.
  split; [reflexivity|]. split; [reflexivity|]. split; [reflexivity|].
  apply (X7_value_determines_plaintext (lit "sk-or-v1-test") OPENROUTER_KEY
           SECRET entropy_count entropy_count); reflexivity.
Defined.

(** ** Chaining from the same IV *)

Lemma firstn_join_blocks (k : nat) (bs : list block) :
  firstn (16 * k) (join_blocks bs) = join_blocks (firstn k bs).
Proof.
  revert bs. induction k as [|k IH]; intros bs; [reflexivity|].
  destruct bs as [|b bs].
  - cbn [join_blocks flat_map firstn]. apply firstn_nil.
  - replace (16 * S k)%nat with (List.length (bytes_of_block b) + 16 * k)%nat
      by (rewrite bytes_of_block_length; lia).
    unfold join_blocks in *. cbn [flat_map firstn].
    rewrite firstn_app_2, IH. reflexivity.
Qed.

Lemma join_blocks_inj (bs bs' : list block) :
  join_blocks bs = join_blocks bs' -> bs = bs'.
Proof.
  intros H.
  pose proof (split_blocks_join bs [] ltac:(simpl; lia)) as S.
  pose proof (split_blocks_join bs' [] ltac:(simpl; lia)) as S'.
  rewrite H, S' in S. congruence.
Qed.

Lemma cbc_encrypt_blocks_firstn (rks : list block) (ch : block)
    (k : nat) (ps : list block) :
  firstn k (fst (cbc_encrypt_blocks rks ch ps)) =
  fst (cbc_encrypt_blocks rks ch (firstn k ps)).
Proof.
  revert ch k. induction ps as [|p ps IH]; intros ch k.
  - destruct k; reflexivity.
  - destruct k as [|k]; [reflexivity|].
    cbn [firstn cbc_encrypt_blocks].
    specialize (IH (cipher_block rks (xor_block p ch)) k).
    destruct (cbc_encrypt_blocks rks (cipher_block rks (xor_block p ch)) ps).
    destruct (cbc_encrypt_blocks rks (cipher_block rks (xor_block p ch))
                (firstn k ps)).
    cbn [fst firstn] in *. rewrite IH. reflexivity.
Qed.

(** X8: with the same passphrase and the same IV, plaintexts that agree
    on their first k blocks of 16 bytes give ciphertexts that agree on
    their first k blocks: a repeated IV shows common prefixes, which is
    why line 21 draws a fresh one for every run. *)
Theorem X8_same_iv_common_prefix (T1 T2 P : str) (e : entropy) (k : nat) :
  forallb is_scalar T1 = true -> forallb is_scalar T2 = true ->
  forallb is_scalar P = true ->
  exists r1 r2,
    script T1 P e = Ok r1 /\ script T2 P e = Ok r2 /\
    ((16 * k <= List.length (run_plaintext r1))%nat ->
     firstn (16 * k) (run_plaintext r1) = firstn (16 * k) (run_plaintext r2) ->
     firstn (16 * k) (run_encrypted r1) = firstn (16 * k) (run_encrypted r2)).
Proof.
  intros H1 H2 HP.
  destruct (script_total T1 P e H1 HP) as (sb & pt1 & Hsb & Hpt1).
  destruct (script_total T2 P e H2 HP) as (sb' & pt2 & Hsb' & Hpt2).
  rewrite Hsb in Hsb'. apply Ok_inj in Hsb'. subst sb'.
  destruct (script_run T1 P e sb pt1 Hsb Hpt1)
    as (padded1 & ps1 & Hpad1 & Hj1 & _ & Hr1).
  destruct (script_run T2 P e sb pt2 Hsb Hpt2)
    as (padded2 & ps2 & Hpad2 & Hj2 & _ & Hr2).
  cbv zeta in Hr1, Hr2.
  eexists. eexists. split; [exact Hr1|]. split; [exact Hr2|].
  cbn [run_plaintext run_encrypted]. intros Hk E.
  assert (Hk2 : (16 * k <= List.length pt2)%nat).
  { apply (f_equal (@List.length byte)) in E.
    rewrite !length_firstn in E. lia. }
  destruct (padded_plaintext_eq pt1) as (b1 & _ & E1).
  destruct (padded_plaintext_eq pt2) as (b2 & _ & E2).
  rewrite Hpad1 in E1. apply Ok_inj in E1.
  rewrite Hpad2 in E2. apply Ok_inj in E2.
  assert (Hps : firstn k ps1 = firstn k ps2).
  { apply join_blocks_inj. rewrite <- !firstn_join_blocks, Hj1, Hj2, E1, E2.
    rewrite !firstn_app.
    replace (16 * k - List.length pt1)%nat with 0%nat by lia.
    replace (16 * k - List.length pt2)%nat with 0%nat by lia.
    cbn [firstn]. rewrite !app_nil_r. exact E. }
  rewrite !firstn_join_blocks. unfold cbc_ciphertext.
  rewrite !cbc_encrypt_blocks_firstn, Hps. reflexivity.
Qed.

Lemma X8_same_iv_common_prefix_witness :
  forallb is_scalar (lit "0123456789abcdef-first") = true /\
  forallb is_scalar (lit "0123456789abcdef-second one") = true /\
  forallb is_scalar SECRET = true /\
  exists r1 r2,
    script (lit "0123456789abcdef-first") SECRET entropy_count = Ok r1 /\
    script (lit "0123456789abcdef-second one") SECRET entropy_count = Ok r2 /\
    ((16 * 1 <= List.length (run_plaintext r1))%nat ->
     firstn (16 * 1) (run_plaintext r1) = firstn (16 * 1) (run_plaintext r2) ->
     firstn (16 * 1) (run_encrypted r1) = firstn (16 * 1) (run_encrypted r2)).
Proof.
  split; [reflexivity|]. split; [reflexivity|]. split; [reflexivity|].
  apply (X8_same_iv_common_prefix (lit "0123456789abcdef-first")
           (lit "0123456789abcdef-second one") SECRET entropy_count 1);
    reflexivity.
Defined.

(** ** Padding characters of the printed value *)

Lemma char_of_sextet_not_61 (i : N) :
  (i < 64)%N -> Byte.to_N (Base64.char_of_sextet i) <> 61%N.
Proof.
  intros H E.
  pose proof (Base64Facts.char_of_sextet_not_pad i H) as F.
  rewrite (to_N_inj (Base64.char_of_sextet i) Base64.pad_char E) in F.
  rewrite (Byte.byte_dec_lb (eq_refl Base64.pad_char)) in F. discriminate F.
Qed.

Lemma count_pad_upto (n : nat) (l : bytes) :
  (List.length l <= n)%nat ->
  count_occ N.eq_dec (map Byte.to_N (Base64.b64encode l)) 61%N =
  ((2 * List.length l) mod 3)%nat.
Proof.
  revert l. induction n as [|n IH]; intros l H.
  - destruct l; [reflexivity | simpl in H; lia].
  - destruct l as [|a [|b [|c rest]]].
    + reflexivity.
    + destruct (Base64Facts.sextets_lt a a a) as (H0 & _ & _ & _ & H1 & _).
      cbn [Base64.b64encode]; unfold Base64.encode1. cbn [map].
      rewrite !count_occ_cons_neq by (apply char_of_sextet_not_61; assumption).
      reflexivity.
    + destruct (Base64Facts.sextets_lt a b b) as (H0 & H1 & _ & _ & _ & H2).
      cbn [Base64.b64encode]; unfold Base64.encode2. cbn [map].
      rewrite !count_occ_cons_neq by (apply char_of_sextet_not_61; assumption).
      reflexivity.
    + destruct (Base64Facts.sextets_lt a b c) as (H0 & H1 & H2 & H3 & _ & _).
      rewrite Base64Facts.b64encode_cons3. unfold Base64.encode3.
      cbn [app map].
      rewrite !count_occ_cons_neq by (apply char_of_sextet_not_61; assumption).
      rewrite IH by (simpl in H; lia).
      cbn [List.length].
      replace (2 * S (S (S (List.length rest))))%nat
        with (2 * List.length rest + 2 * 3)%nat by lia.
      apply eq_sym, Nat.Div0.mod_add.
Qed.

Lemma count_pad (l : bytes) :
  count_occ N.eq_dec (map Byte.to_N (Base64.b64encode l)) 61%N =
  ((2 * List.length l) mod 3)%nat.
Proof. apply (count_pad_upto (List.length l)). lia. Qed.

(** X10: how many [=] the printed value holds, from the byte length of
    the plaintext: with q = len(plaintext) // 16 the bundle has
    16 (q + 2) bytes, and the value has (2 (q + 2)) mod 3 padding
    characters: none exactly when q + 2 is a multiple of three. *)
Theorem X10_value_padding (T P : str) (e : entropy) :
  forallb is_scalar T = true -> forallb is_scalar P = true ->
  exists r, script T P e = Ok r /\
    count_occ N.eq_dec (run_encrypted_base64 r) 61%N =
    ((2 * (List.length (run_plaintext r) / 16 + 2)) mod 3)%nat.
Proof.
  intros HT HP. open_run T P e HT HP.
  eexists. split; [exact Hrun|].
  cbn [run_plaintext run_encrypted_base64].
  rewrite count_pad, length_app, iv_length, join_blocks_length.
  unfold cbc_ciphertext. rewrite cbc_encrypt_blocks_length, Hl.
  replace (2 * (16 + 16 * (List.length pt / 16 + 1)))%nat
    with (2 * (List.length pt / 16 + 2) + (10 * (List.length pt / 16 + 2)) * 3)%nat
    by lia.
  apply Nat.Div0.mod_add.
Qed.

Lemma X10_value_padding_witness :
  forallb is_scalar (lit "sk-or-v1-test") = true /\
  forallb is_scalar SECRET = true /\
  exists r, script (lit "sk-or-v1-test") SECRET entropy_count = Ok r /\
    count_occ N.eq_dec (run_encrypted_base64 r) 61%N =
    ((2 * (List.length (run_plaintext r) / 16 + 2)) mod 3)%nat.
Proof.
  split; [reflexivity|]. split; [reflexivity|].
  apply (X10_value_padding (lit "sk-or-v1-test") SECRET entropy_count);
    reflexivity.
Defined.

(** ** The script as it is written *)

(** X3: the script with its own two constants, whatever [os.urandom]
    returns: it raises nothing; the key has 73 bytes, so seven bytes of
    value 7 are appended, the ciphertext has 80 bytes, the bundle 96,
    and the printed value is 128 characters without any [=]. *)
Theorem X3_main_succeeds (e : entropy) :
  exists r, main e = Ok r /\
    List.length (run_plaintext r) = 73%nat /\
    run_padding_length r = 7 /\
    List.length (run_padded_plaintext r) = 80%nat /\
    List.length (run_encrypted r) = 80%nat /\
    List.length (run_combined r) = 96%nat /\
    List.length (run_encrypted_base64 r) = 128%nat /\
    ~ In 61%N (run_encrypted_base64 r).
Proof.
  unfold main.
  assert (HT : forallb is_scalar OPENROUTER_KEY = true) by reflexivity.
  assert (HP : forallb is_scalar SECRET = true) by reflexivity.
  open_run OPENROUTER_KEY SECRET e HT HP.
  assert (L : List.length pt = 73%nat).
  { remember (str_encode OPENROUTER_KEY) as m eqn:Hm. vm_compute in Hm.
    rewrite Hm in Hpt. apply Ok_inj in Hpt. subst pt. reflexivity. }
  eexists. split; [exact Hrun|].
  cbn [run_plaintext run_padding_length run_padded_plaintext run_encrypted
       run_combined run_encrypted_base64].
  rewrite L in Hl. change (73 / 16 + 1)%nat with 5%nat in Hl.
  assert (Hc : List.length
                 (join_blocks
                    (cbc_ciphertext
                       {| algorithm := {| aes_key := hashlib_sha256_digest sb |};
                          mode := {| initialization_vector := iv e |} |} ps))
               = 80%nat).
  { rewrite join_blocks_length. unfold cbc_ciphertext.
    rewrite cbc_encrypt_blocks_length, Hl. reflexivity. }
  split; [exact L|]. split.
  { unfold padding_length, len. rewrite L. reflexivity. }
  split.
  { rewrite <- Hj, join_blocks_length, Hl. reflexivity. }
  split; [exact Hc|].
  assert (Hb : List.length
                 (iv e ++ join_blocks
                    (cbc_ciphertext
                       {| algorithm := {| aes_key := hashlib_sha256_digest sb |};
                          mode := {| initialization_vector := iv e |} |} ps))
               = 96%nat).
  { rewrite length_app, iv_length, Hc. reflexivity. }
  split; [exact Hb|]. split.
  - rewrite length_map, b64encode_length, Hb. reflexivity.
  - apply (count_occ_not_In N.eq_dec). rewrite count_pad, Hb. reflexivity.
Qed.

(** ** Shape of standard output *)

Lemma report_split (b64 : str) :
  report b64 = stdout_before_value ++ b64 ++ stdout_after_value.
Proof.
  rewrite report_lines.
  unfold stdout_before_value, stdout_after_value, unlines.
  cbn [map List.concat]. rewrite <- !app_assoc. cbn [app]. reflexivity.
Qed.

Lemma alphabet_count_zero (c : N) (s : str) :
  Base64.in_alphabet c = false ->
  Forall (fun x => Base64.in_alphabet x = true) s ->
  count_occ N.eq_dec s c = 0%nat.
Proof.
  intros Hc Hs. apply count_occ_not_In. intros I.
  rewrite Forall_forall in Hs. rewrite (Hs c I) in Hc. discriminate Hc.
Qed.

(** X11: what a successful run writes to standard output: ASCII only,
    641 characters besides the value, exactly fifteen newlines (the
    value never breaks a line) and exactly six single quotes (the three
    SQL string literals, none opened or closed by the value). *)
Theorem X11_stdout_shape (T P : str) (e : entropy) :
  forallb is_scalar T = true -> forallb is_scalar P = true ->
  exists r, script T P e = Ok r /\
    Forall (fun c => (c < 128)%N) (run_stdout r) /\
    List.length (run_stdout r) =
      (641 + List.length (run_encrypted_base64 r))%nat /\
    count_occ N.eq_dec (run_stdout r) 10%N = 15%nat /\
    count_occ N.eq_dec (run_stdout r) 39%N = 6%nat.
Proof.
  intros HT HP. open_run T P e HT HP.
  eexists. split; [exact Hrun|].
  cbn [run_stdout run_encrypted_base64].
  set (v := map Byte.to_N (Base64.b64encode _)).
  assert (HA : Forall (fun c => Base64.in_alphabet c = true) v).
  { apply Forall_map, Base64Facts.b64encode_alphabet. }
  rewrite report_split. split.
  { apply Forall_app. split.
    - apply Forall_forall. intros x I. apply N.ltb_lt. revert x I.
      apply forallb_forall. vm_compute. reflexivity.
    - apply Forall_app. split.
      + eapply Forall_impl; [|exact HA].
        intros x. apply Base64Facts.in_alphabet_ascii.
      + apply Forall_forall. intros x I. apply N.ltb_lt. revert x I.
        apply forallb_forall. vm_compute. reflexivity. }
  split.
  { rewrite !length_app.
    change (List.length stdout_before_value) with 284%nat.
    change (List.length stdout_after_value) with 357%nat. lia. }
  rewrite !count_occ_app.
  rewrite !(alphabet_count_zero _ v) by (reflexivity || exact HA).
  split; vm_compute; reflexivity.
Qed.

Lemma X11_stdout_shape_witness :
  forallb is_scalar OPENROUTER_KEY = true /\
  forallb is_scalar SECRET = true /\
  exists r, script OPENROUTER_KEY SECRET entropy_count = Ok r /\
    Forall (fun c => (c < 128)%N) (run_stdout r) /\
    List.length (run_stdout r) =
      (641 + List.length (run_encrypted_base64 r))%nat /\
    count_occ N.eq_dec (run_stdout r) 10%N = 15%nat /\
    count_occ N.eq_dec (run_stdout r) 39%N = 6%nat.
Proof.
  split; [reflexivity|]. split; [reflexivity|].
  apply (X11_stdout_shape OPENROUTER_KEY SECRET entropy_count); reflexivity.
Defined.

(** ** The encryption step loses nothing *)

Lemma encrypted_ok_blocks (c : Cipher) (data ct : bytes) :
  encrypted c data = Ok ct ->
  exists ps, join_blocks ps = data /\ ct = join_blocks (cbc_ciphertext c ps).
Proof.
  intros H.
  destruct (Nat.eq_dec (List.length data mod 16) 0) as [A|A].
  - assert (Hn : List.length data = (16 * (List.length data / 16))%nat)
      by (apply Nat.Div0.div_exact; exact A).
    destruct (encrypted_aligned c _ data Hn) as (ps & Hj & _ & He).
    exists ps. split; [exact Hj|].
    rewrite He in H. apply Ok_inj in H. symmetry. exact H.
  - exfalso.
    destruct (split_blocks_unaligned data A) as (bs & x & r & S).
    revert H. unfold encrypted, update, encryptor.
    cbn [buffer app round_keys chain]. rewrite S.
    destruct (cbc_encrypt_blocks _ _ bs) as [cs last]. discriminate.
Qed.

(** X13: lines 31-38 on their own: under one cipher object (one key,
    one IV) the encryption step is injective: two inputs with the same
    ciphertext are the same input. *)
Theorem X13_encrypted_injective (c : Cipher) (d1 d2 ct : bytes) :
  encrypted c d1 = Ok ct -> encrypted c d2 = Ok ct -> d1 = d2.
Proof.
  intros H1 H2.
  destruct (encrypted_ok_blocks c d1 ct H1) as (ps1 & J1 & E1).
  destruct (encrypted_ok_blocks c d2 ct H2) as (ps2 & J2 & E2).
  rewrite E1 in E2. apply join_blocks_inj in E2.
  apply (f_equal (cbc_decrypt_blocks (key_expansion (aes_key (algorithm c)))
                    (block_of_bytes (initialization_vector (mode c))))) in E2.
  unfold cbc_ciphertext in E2. rewrite !cbc_decrypt_encrypt in E2.
  rewrite <- J1, <- J2, E2. reflexivity.
Qed.

Lemma X13_encrypted_injective_witness :
  let c := {| algorithm := {| aes_key := repeat x00 32 |};
              mode := {| initialization_vector := repeat x01 16 |} |} in
  encrypted c (repeat x02 32) =
    Ok (join_blocks (cbc_ciphertext c [block_of_bytes (repeat x02 16);
                                       block_of_bytes (repeat x02 16)])) /\
  repeat x02 32 = repeat x02 32.
Proof.
  cbv zeta.
  assert (H : encrypted
                {| algorithm := {| aes_key := repeat x00 32 |};
                   mode := {| initialization_vector := repeat x01 16 |} |}
                (repeat x02 32) =
              Ok (join_blocks
                    (cbc_ciphertext
                       {| algorithm := {| aes_key := repeat x00 32 |};
                          mode := {| initialization_vector := repeat x01 16 |} |}
                       [block_of_bytes (repeat x02 16);
                        block_of_bytes (repeat x02 16)])))
    by (vm_compute; reflexivity).
  split; [exact H|].
  exact (X13_encrypted_injective _ _ _ _ H H).
Defined.
